(** * PicStore image routes: a shallow embedding of [server/routes/images.js]

    The module is an Express router with five handlers (list, search, upload,
    rename, delete), a multer intake stage in front of the upload handler and
    an error middleware behind the routes.

    Modelling choices.
    - A JavaScript string is its sequence of code units, here the units below
      256, so [string] of the Standard Library is used; [trim] strips the
      ECMAScript white space that lies in that range.
    - A value that may be [undefined] is an [option]; request fields and query
      parameters are optional strings.
    - The two Mongoose collections are lists of documents in insertion order,
      kept in an explicit [World] together with the console.  Handlers are
      written in a state-and-exception monad because the source threads both
      through [await] and [try]/[catch].
    - Ids are opaque; an id is named by a string.  A string that arrives in
      a request is cast by the database layer before it is compared: the
      text of a stored id is always cast, any other string only if the
      layer accepts its format, and a failed cast is a CastError thrown by
      the lookup.  Apart from that, database reads fail only when the
      database rejects a regular expression.
    - What the file imports but does not define (the Cloudinary helpers, the
      schema validation behind [save], the regular-expression engine of the
      database, the clock and the id generator) is gathered in a record [Env]
      that every handler receives.
    - Every route runs behind [auth]; a handler takes the id of the caller
      that [auth] established. *)

From Stdlib Require Import String Ascii List Bool NArith ZArith Lia.
From Stdlib Require Import Sorting.Sorted Sorting.Permutation.
From Stdlib Require Import DecimalString.
From Stdlib Require DecimalPos DecimalN.
Import ListNotations.

Local Open Scope string_scope.
Local Open Scope list_scope.

(** ** JavaScript primitives used by the routes *)

Module JS.

(** White space and line terminators of ECMAScript among the units below
    256: TAB, LF, VT, FF, CR, SP and NBSP. *)
Definition isWhiteSpace (c : ascii) : bool :=
  let n := N_of_ascii c in
  (((9 <=? n) && (n <=? 13)) || (n =? 32) || (n =? 160))%N.

Fixpoint trimStart (s : string) : string :=
  match s with
  | EmptyString => EmptyString
  | String c r => if isWhiteSpace c then trimStart r else s
  end.

Fixpoint trimEnd (s : string) : string :=
  match s with
  | EmptyString => EmptyString
  | String c r =>
      match trimEnd r with
      | EmptyString => if isWhiteSpace c then EmptyString else String c EmptyString
      | r' => String c r'
      end
  end.

(** [String.prototype.trim]. *)
Definition trim (s : string) : string := trimEnd (trimStart s).

(** Truthiness of a string: only the empty string is falsy. *)
Definition truthy (s : string) : bool :=
  match s with EmptyString => false | String _ _ => true end.

(** [String.prototype.includes]. *)
Fixpoint includes (s pat : string) : bool :=
  String.prefix pat s ||
  match s with
  | EmptyString => false
  | String _ r => includes r pat
  end.

(** [Array.prototype.join] on an array of strings. *)
Definition join (sep : string) (l : list string) : string := String.concat sep l.

(** [String.prototype.split] with a one-character separator. *)
Fixpoint split (sep : ascii) (s : string) : list string :=
  match s with
  | EmptyString => [EmptyString]
  | String c r =>
      if Ascii.eqb c sep then EmptyString :: split sep r
      else match split sep r with
           | h :: t => String c h :: t
           | [] => [String c EmptyString]
           end
  end.

Definition isAlnum (c : ascii) : bool :=
  let n := N_of_ascii c in
  (((48 <=? n) && (n <=? 57)) || ((65 <=? n) && (n <=? 90))
   || ((97 <=? n) && (n <=? 122)))%N.

(** [s.replace(/[^a-zA-Z0-9]/g, "_")]. *)
Fixpoint replaceNonAlnum (s : string) : string :=
  match s with
  | EmptyString => EmptyString
  | String c r => String (if isAlnum c then c else "_"%char) (replaceNonAlnum r)
  end.

(** Value of a digit in [parseInt], letters counting from ten. *)
Definition digitValue (c : ascii) : option N :=
  let n := N_of_ascii c in
  if ((48 <=? n) && (n <=? 57))%N then Some (n - 48)%N
  else if ((65 <=? n) && (n <=? 90))%N then Some (n - 55)%N
  else if ((97 <=? n) && (n <=? 122))%N then Some (n - 87)%N
  else None.

(** The longest prefix of digits of the radix, read as a number; [None]
    when there is no digit at all. *)
Fixpoint parseDigits (radix : N) (s : string) (acc : option N) : option N :=
  match s with
  | EmptyString => acc
  | String c r =>
      match digitValue c with
      | Some d =>
          if (d <? radix)%N
          then parseDigits radix r
                 (Some (radix * match acc with Some a => a | None => 0 end + d)%N)
          else acc
      | None => acc
      end
  end.

(** The double nearest to a non-negative integer, ties to even: integers
    up to 2^53 are themselves, larger ones keep 53 significant bits.
    (Magnitudes from 2^1024 on, where the source has Infinity, are not
    modelled.) *)
Definition toDouble (n : N) : N :=
  if (n <=? 2 ^ 53)%N then n
  else
    let e := (N.log2 n - 52)%N in
    let q := N.shiftr n e in
    let r := (n - N.shiftl q e)%N in
    let half := (2 ^ (e - 1))%N in
    let q' := if (half <? r)%N || ((r =? half)%N && N.odd q) then (q + 1)%N else q in
    N.shiftl q' e.

(** [parseInt] with no radix argument; [None] is NaN. *)
Definition parseInt (s : string) : option Z :=
  let s1 := trimStart s in
  let '(neg, s2) :=
    match s1 with
    | String "-"%char r => (true, r)
    | String "+"%char r => (false, r)
    | _ => (false, s1)
    end in
  let '(radix, s3) :=
    match s2 with
    | String "0"%char (String "x"%char r) => (16%N, r)
    | String "0"%char (String "X"%char r) => (16%N, r)
    | _ => (10%N, s2)
    end in
  match parseDigits radix s3 None with
  | None => None
  | Some n => Some (if neg then (- Z.of_N (toDouble n))%Z else Z.of_N (toDouble n))
  end.

(** Decimal rendering of a non-negative integer, as in a template
    literal. *)
Definition numberToString (n : N) : string :=
  NilZero.string_of_uint (N.to_uint n).

End JS.

(** ** Documents *)

(** Ids are opaque; they are compared as strings. *)
Abbreviation ObjectId := string (only parsing).

(** The Folder collection, of which the routes only read. *)
Module Folder.

(** Modelled from the spec: the Folder schema ([models/Folder]) is not among
    the sources; a Folder has an identifier, an owner reference, a name and
    a path, which are also the only fields the routes touch. *)
Record t := mk { _id : ObjectId; owner : ObjectId; name : string; path : string }.

(** [Folder.findOne({ _id: id, owner: user })] on the collection. *)
Definition findOne (id user : ObjectId) (coll : list t) : option t :=
  find (fun f => String.eqb (_id f) id && String.eqb (owner f) user) coll.

(** [findById], which is what [populate] performs for a reference. *)
Definition findById (id : ObjectId) (coll : list t) : option t :=
  find (fun f => String.eqb (_id f) id) coll.

End Folder.

(** The Image collection. *)
Module Image.

(** Modelled from the spec: the Image schema ([models/Image]) is not among
    the sources; the fields are those of the data model, under the names
    the upload handler gives them.  The folder reference is optional, absent
    meaning the root. *)
Record t := mk {
  _id : ObjectId;
  name : string;
  cloudinaryUrl : string;
  cloudinaryPublicId : string;
  folder : option ObjectId;          (* [None]: the field is absent *)
  owner : ObjectId;
  size : N;
  mimetype : string }.

Definition set_name (n : string) (i : t) : t :=
  mk (_id i) n (cloudinaryUrl i) (cloudinaryPublicId i) (folder i) (owner i)
     (size i) (mimetype i).

(** The filter objects that the routes build. *)
Inductive IdCond := IdEq (id : ObjectId) | IdNe (id : ObjectId).
Inductive FolderCond :=
| FolderEq (id : ObjectId)           (* folder: id *)
| FolderNull                         (* folder: null or undefined *)
| FolderNotExists.                   (* folder: { $exists: false } *)
Inductive NameCond :=
| NameEq (n : string)                (* name: n *)
| NameRegex (pattern options : string).   (* name: { $regex, $options } *)

Record Query := {
  q_id : option IdCond;
  q_owner : ObjectId;
  q_folder : option FolderCond;
  q_name : option NameCond }.

Definition matchId (c : option IdCond) (i : t) : bool :=
  match c with
  | None => true
  | Some (IdEq x) => String.eqb (_id i) x
  | Some (IdNe x) => negb (String.eqb (_id i) x)
  end.

Definition matchFolder (c : option FolderCond) (i : t) : bool :=
  match c, folder i with
  | None, _ => true
  | Some (FolderEq x), Some f => String.eqb f x
  | Some (FolderEq _), None => false
  | Some FolderNull, None => true
  | Some FolderNull, Some _ => false
  | Some FolderNotExists, None => true
  | Some FolderNotExists, Some _ => false
  end.

(** Insertion into a list sorted by name; [sortByName] is
    [.sort({ name: 1 })] with the binary order of the database. *)
Fixpoint insertByName (x : t) (l : list t) : list t :=
  match l with
  | [] => [x]
  | y :: r => if String.leb (name x) (name y) then x :: l else y :: insertByName x r
  end.

Fixpoint sortByName (l : list t) : list t :=
  match l with
  | [] => []
  | x :: r => insertByName x (sortByName r)
  end.

(** [.limit(n)]. *)
Definition limit (n : nat) (l : list t) : list t := firstn n l.

(** The first document with the id is removed, as [findByIdAndDelete]
    removes one document. *)
Fixpoint removeById (id : ObjectId) (l : list t) : list t :=
  match l with
  | [] => []
  | y :: r => if String.eqb (_id y) id then r else y :: removeById id r
  end.

Definition replaceById (doc : t) (l : list t) : list t :=
  map (fun d => if String.eqb (_id d) (_id doc) then doc else d) l.

End Image.

(** A reference after [populate("folder", "name path")]: the selected fields
    and the id, [Null] when no Folder has the id, [Unset] when the image has
    no folder field. *)
Record FolderRef := { ref_id : ObjectId; ref_name : string; ref_path : string }.

Inductive Populated := Unset | Null | Expanded (f : FolderRef).

Record ImageDoc := { doc : Image.t; folder : Populated }.

Definition populateFolder (folders : list Folder.t) (i : Image.t) : Populated :=
  match Image.folder i with
  | None => Unset
  | Some id =>
      match Folder.findById id folders with
      | Some f => Expanded {| ref_id := Folder._id f; ref_name := Folder.name f;
                              ref_path := Folder.path f |}
      | None => Null
      end
  end.

Definition populate (folders : list Folder.t) (i : Image.t) : ImageDoc :=
  {| doc := i; folder := populateFolder folders i |}.

(** A populated document used as the value of [folder] in a filter is cast
    to its id; [null] and [undefined] are sent as null. *)
Definition folderCondOf (p : Populated) : Image.FolderCond :=
  match p with
  | Expanded f => Image.FolderEq (ref_id f)
  | Null | Unset => Image.FolderNull
  end.

(** ** Errors, responses, collaborators *)

Inductive JsError :=
| Error (message : string)
| ValidationError (errors : list string)     (* the messages of [error.errors] *)
| MulterError (code message : string)
| CastError (message : string).

Definition error_name (e : JsError) : string :=
  match e with
  | Error _ => "Error"
  | ValidationError _ => "ValidationError"
  | MulterError _ _ => "MulterError"
  | CastError _ => "CastError"
  end.

Definition error_message (e : JsError) : string :=
  match e with
  | Error m => m
  | ValidationError errs => "Validation failed: " ++ JS.join ", " errs
  | MulterError _ m => m
  | CastError m => m
  end.

Inductive Body :=
| Message (message : string)
| ImageJson (image : ImageDoc)
| ImagesJson (images : list ImageDoc).

Record Response := { status : nat; body : Body }.

Record CloudinaryResult := { secure_url : string; public_id : string }.

Record Env := {
  Date_now : N;
  (** the id that [new Image] gives the document *)
  new_ObjectId : ObjectId;
  (** [uploadToCloudinary(buffer, { folder, public_id })] *)
  uploadToCloudinary : list Byte.byte -> string -> string -> JsError + CloudinaryResult;
  (** [deleteFromCloudinary(publicId)]: [Some e] when it rejects with [e] *)
  deleteFromCloudinary : string -> option JsError;
  (** schema validation run by [save]: the messages, none when valid *)
  validate : Image.t -> list string;
  (** the database compiling [{ $regex: p, $options: o }]: [None] when it
      rejects the pattern, otherwise the test applied to the field *)
  regex : string -> string -> option (string -> bool);
  (** the format check of the cast to an id: [None] when the string has the
      format of an id, otherwise the message of the CastError *)
  castObjectId : string -> option string }.

Record World := {
  folders : list Folder.t;
  images : list Image.t;
  console : list (string * JsError) }.

(** ** The handler monad: state and exceptions *)

Inductive Outcome (A : Type) := Return (a : A) | Throw (e : JsError).
Arguments Return {A} a.
Arguments Throw {A} e.

Definition M (A : Type) : Type := World -> Outcome A * World.

Definition ret {A} (a : A) : M A := fun w => (Return a, w).

Definition bind {A B} (m : M A) (k : A -> M B) : M B :=
  fun w =>
    match m w with
    | (Return a, w') => k a w'
    | (Throw e, w') => (Throw e, w')
    end.

(** [try { m } catch (e) { h e }]. *)
Definition try_catch {A} (m : M A) (h : JsError -> M A) : M A :=
  fun w =>
    match m w with
    | (Return a, w') => (Return a, w')
    | (Throw e, w') => h e w'
    end.

Notation "x <- m ;; k" := (bind m (fun x => k))
  (at level 61, m at next level, right associativity).
Notation "m ;;; k" := (bind m (fun _ => k))
  (at level 61, right associativity).

Definition console_error (label : string) (e : JsError) : M unit :=
  fun w => (Return tt,
            {| folders := folders w; images := images w;
               console := console w ++ [(label, e)] |}).

Definition set_images (l : list Image.t) (w : World) : World :=
  {| folders := folders w; images := l; console := console w |}.

(** [res.status(s).json(b)] and [res.json(b)]. *)
Definition json_status (s : nat) (b : Body) : M Response :=
  ret {| status := s; body := b |}.

Definition json (b : Body) : M Response := json_status 200 b.

(** *** Database operations *)

(** The cast of a request string to an id of a collection: the text of a
    stored id is an id, any other string must pass the format check. *)
Definition castId (env : Env) (stored : list ObjectId) (s : string) : option JsError :=
  if existsb (String.eqb s) stored then None
  else option_map CastError (castObjectId env s).

Definition Folder_findOne (env : Env) (id user : ObjectId) : M (option Folder.t) :=
  fun w =>
    match castId env (map Folder._id (folders w)) id with
    | None => (Return (Folder.findOne id user (folders w)), w)
    | Some e => (Throw e, w)
    end.

(** The filter as a test on documents; the query fails when an id of the
    filter cannot be cast or when the database rejects the regular
    expression. *)
Definition compileQuery (env : Env) (w : World) (q : Image.Query)
  : JsError + (Image.t -> bool) :=
  let base (nameTest : string -> bool) (i : Image.t) :=
    Image.matchId (Image.q_id q) i
    && String.eqb (Image.owner i) (Image.q_owner q)
    && Image.matchFolder (Image.q_folder q) i
    && nameTest (Image.name i) in
  match match Image.q_id q with
        | Some (Image.IdEq id) => castId env (map Image._id (images w)) id
        | _ => None
        end with
  | Some e => inl e
  | None =>
  match match Image.q_folder q with
        | Some (Image.FolderEq f) => castId env (map Folder._id (folders w)) f
        | _ => None
        end with
  | Some e => inl e
  | None =>
  match Image.q_name q with
  | None => inr (base (fun _ => true))
  | Some (Image.NameEq n) => inr (base (fun s => String.eqb s n))
  | Some (Image.NameRegex p o) =>
      match regex env p o with
      | Some test => inr (base test)
      | None => inl (Error "Regular expression is invalid")
      end
  end end end.

(** [Image.find(q)]: the matching documents in collection order. *)
Definition Image_find (env : Env) (q : Image.Query) : M (list Image.t) :=
  fun w =>
    match compileQuery env w q with
    | inr test => (Return (filter test (images w)), w)
    | inl e => (Throw e, w)
    end.

(** [Image.findOne(q)]. *)
Definition Image_findOne (env : Env) (q : Image.Query) : M (option Image.t) :=
  fun w =>
    match compileQuery env w q with
    | inr test => (Return (find test (images w)), w)
    | inl e => (Throw e, w)
    end.

(** [doc.populate("folder", "name path")] and the same on a query result. *)
Definition Image_populate (i : Image.t) : M ImageDoc :=
  fun w => (Return (populate (folders w) i), w).

Definition Image_populateAll (l : list Image.t) : M (list ImageDoc) :=
  fun w => (Return (map (populate (folders w)) l), w).

(** [image.save()]: validation first; a new document is inserted (the
    database refuses an id already present), an existing one is updated. *)
Definition Image_save (env : Env) (isNew : bool) (i : Image.t) : M unit :=
  fun w =>
    match validate env i with
    | [] =>
        if isNew then
          if existsb (fun d => String.eqb (Image._id d) (Image._id i)) (images w)
          then (Throw (Error "E11000 duplicate key error"), w)
          else (Return tt, set_images (images w ++ [i]) w)
        else (Return tt, set_images (Image.replaceById i (images w)) w)
    | msgs => (Throw (ValidationError msgs), w)
    end.

(** [Image.findByIdAndDelete(id)]. *)
Definition Image_findByIdAndDelete (id : ObjectId) : M unit :=
  fun w => (Return tt, set_images (Image.removeById id (images w)) w).

(** *** Cloudinary *)

Definition await_upload (env : Env) (buffer : list Byte.byte) (folder public_id : string)
  : M CloudinaryResult :=
  fun w =>
    match uploadToCloudinary env buffer folder public_id with
    | inr r => (Return r, w)
    | inl e => (Throw e, w)
    end.

Definition await_delete (env : Env) (publicId : string) : M unit :=
  fun w =>
    match deleteFromCloudinary env publicId with
    | None => (Return tt, w)
    | Some e => (Throw e, w)
    end.

(** ** The multer intake stage *)

(** The two environment variables read when the module is loaded. *)
Record ProcessEnv := {
  FILE_SIZE_LIMIT : option string;
  ALLOWED_FILE_TYPES : option string }.

(** [parseInt(process.env.FILE_SIZE_LIMIT) || 5000000]: NaN and 0 are
    falsy. *)
Definition fileSize (penv : ProcessEnv) : Z :=
  match match FILE_SIZE_LIMIT penv with
        | Some s => JS.parseInt s
        | None => None
        end with
  | Some n => if (n =? 0)%Z then 5000000%Z else n
  | None => 5000000%Z
  end.

(** [process.env.ALLOWED_FILE_TYPES?.split(",") || [...]]: an array is
    truthy, so the default applies only when the variable is unset. *)
Definition allowedTypes (penv : ProcessEnv) : list string :=
  match ALLOWED_FILE_TYPES penv with
  | Some s => JS.split ","%char s
  | None => ["image/jpeg"; "image/png"; "image/gif"]
  end.

(** [fileFilter]: [None] is [cb(null, true)], [Some e] is [cb(e, false)]. *)
Definition fileFilter (penv : ProcessEnv) (mimetype : string) : option JsError :=
  if existsb (String.eqb mimetype) (allowedTypes penv) then None
  else Some (Error "Invalid file type. Only JPEG, PNG and GIF images are allowed.").

(** The multipart request: the two text fields and the part named
    [image].  [part_mimetype] is the content type as the intake reports it,
    which is in lower case. *)
Record FilePart := { part_mimetype : string; part_data : list Byte.byte }.

Record UploadRequest := {
  field_name : option string;
  field_folderId : option string;
  part_image : option FilePart }.

(** [req.file] under memory storage. *)
Record File := { buffer : list Byte.byte; size : N; mimetype : string }.

(** [upload.single("image")]: the filter is asked when the part starts, the
    size limit is hit while its bytes are read, as soon as their number
    reaches the limit. *)
Definition upload_single (penv : ProcessEnv) (req : UploadRequest) : JsError + option File :=
  match part_image req with
  | None => inr None
  | Some p =>
      match fileFilter penv (part_mimetype p) with
      | Some e => inl e
      | None =>
          let n := N.of_nat (List.length (part_data p)) in
          if (fileSize penv <=? Z.of_N n)%Z
          then inl (MulterError "LIMIT_FILE_SIZE" "File too large")
          else inr (Some {| buffer := part_data p; size := n;
                            mimetype := part_mimetype p |})
      end
  end.

(** ** The handlers *)

(** [if (!o || !o.trim()) blank else k(o)]. *)
Definition ifBlank {A} (o : option string) (blank : A) (k : string -> A) : A :=
  match o with
  | Some s => if JS.truthy s && JS.truthy (JS.trim s) then k s else blank
  | None => blank
  end.

(** [if (!o) falsy else k(o)]. *)
Definition ifFalsy {A} (o : option string) (falsy : A) (k : string -> A) : A :=
  match o with
  | Some s => if JS.truthy s then k s else falsy
  | None => falsy
  end.

(** [router.get("/")]. *)
Definition get_images (env : Env) (user : ObjectId) (folder : option string) : M Response :=
  let respond (cond : Image.FolderCond) : M Response :=
    found <- Image_find env {| Image.q_id := None; Image.q_owner := user;
                               Image.q_folder := Some cond; Image.q_name := None |} ;;
    images <- Image_populateAll (Image.sortByName found) ;;
    json (ImagesJson images) in
  try_catch
    (ifFalsy folder
       (respond Image.FolderNotExists)
       (fun folder =>
          folderDoc <- Folder_findOne env folder user ;;
          match folderDoc with
          | None => json_status 404 (Message "Folder not found")
          | Some _ => respond (Image.FolderEq folder)
          end))
    (fun error =>
       console_error "Get images error:" error ;;;
       json_status 500 (Message "Server error while fetching images")).

(** [router.get("/search")]. *)
Definition get_search (env : Env) (user : ObjectId) (q : option string) : M Response :=
  try_catch
    (ifBlank q
       (json (ImagesJson []))
       (fun q =>
          found <- Image_find env {| Image.q_id := None; Image.q_owner := user;
                                     Image.q_folder := None;
                                     Image.q_name := Some (Image.NameRegex (JS.trim q) "i") |} ;;
          images <- Image_populateAll (Image.limit 50 (Image.sortByName found)) ;;
          json (ImagesJson images)))
    (fun error =>
       console_error "Search images error:" error ;;;
       json_status 500 (Message "Server error while searching images")).

Definition error_errors (e : JsError) : list string :=
  match e with
  | ValidationError errs => errs
  | _ => []
  end.

(** The placement of an upload: [`users/${user}/images`] and
    [`${folderId}_${Date.now()}_${sanitized name}`]. *)
Definition placementFolder (user : ObjectId) : string := "users/" ++ user ++ "/images".

Definition placementId (env : Env) (folderId name : string) : string :=
  folderId ++ "_" ++ JS.numberToString (Date_now env) ++ "_"
  ++ JS.replaceNonAlnum (JS.trim name).

(** The document that the upload handler builds from the storage result. *)
Definition newImage (env : Env) (user : ObjectId) (name folderId : string) (file : File)
    (result : CloudinaryResult) : Image.t :=
  Image.mk (new_ObjectId env) (JS.trim name) (secure_url result) (public_id result)
    (Some folderId) user (size file) (mimetype file).

(** The inner [try]/[catch] of the upload handler: storage upload, save,
    populate, 201. *)
Definition uploadAndSave (env : Env) (user : ObjectId) (name folderId : string)
    (file : File) : M Response :=
  try_catch
    (result <- await_upload env (buffer file)
                 (placementFolder user) (placementId env folderId name) ;;
     let image := newImage env user name folderId file result in
     Image_save env true image ;;;
     image <- Image_populate image ;;
     json_status 201 (ImageJson image))
    (fun uploadError =>
       console_error "Cloudinary upload error:" uploadError ;;;
       json_status 500 (Message "Failed to upload image to cloud storage")).

(** [router.post("/upload")], after [auth] and [upload.single]. *)
Definition post_upload (env : Env) (user : ObjectId)
    (name folderId : option string) (file : option File) : M Response :=
  try_catch
    (ifBlank name
       (json_status 400 (Message "Image name is required"))
       (fun name =>
    ifFalsy folderId
       (json_status 400 (Message "Folder ID is required"))
       (fun folderId =>
    match file with
    | None => json_status 400 (Message "Image file is required")
    | Some file =>
    folder <- Folder_findOne env folderId user ;;
    match folder with
    | None => json_status 404 (Message "Folder not found")
    | Some _ =>
    existingImage <- Image_findOne env
      {| Image.q_id := None; Image.q_owner := user;
         Image.q_folder := Some (Image.FolderEq folderId);
         Image.q_name := Some (Image.NameEq (JS.trim name)) |} ;;
    match existingImage with
    | Some _ =>
        json_status 400 (Message "Image with this name already exists in the folder")
    | None =>
        uploadAndSave env user name folderId file
    end end end)))
    (fun error =>
       console_error "Upload image error:" error ;;;
       if String.eqb (error_name error) "ValidationError"
       then json_status 400 (Message (JS.join ", " (error_errors error)))
       else if JS.includes (error_message error) "Invalid file type"
       then json_status 400 (Message (error_message error))
       else json_status 500 (Message "Server error while uploading image")).

(** [router.put("/:id")]. *)
Definition put_id (env : Env) (user id : ObjectId) (name : option string) : M Response :=
  try_catch
    (ifBlank name
       (json_status 400 (Message "Image name is required"))
       (fun name =>
    found <- Image_findOne env {| Image.q_id := Some (Image.IdEq id); Image.q_owner := user;
                                  Image.q_folder := None; Image.q_name := None |} ;;
    match found with
    | None => json_status 404 (Message "Image not found")
    | Some found =>
    image <- Image_populate found ;;
    existingImage <- Image_findOne env
      {| Image.q_id := Some (Image.IdNe (Image._id (doc image)));
         Image.q_owner := user;
         Image.q_folder := Some (folderCondOf (folder image));
         Image.q_name := Some (Image.NameEq (JS.trim name)) |} ;;
    match existingImage with
    | Some _ =>
        json_status 400 (Message "Image with this name already exists in the folder")
    | None =>
        let image := {| doc := Image.set_name (JS.trim name) (doc image);
                        folder := folder image |} in
        Image_save env false (doc image) ;;;
        json (ImageJson image)
    end end))
    (fun error =>
       console_error "Update image error:" error ;;;
       json_status 500 (Message "Server error while updating image")).

(** [router.delete("/:id")]. *)
Definition delete_id (env : Env) (user id : ObjectId) : M Response :=
  try_catch
    (image <- Image_findOne env {| Image.q_id := Some (Image.IdEq id); Image.q_owner := user;
                                  Image.q_folder := None; Image.q_name := None |} ;;
     match image with
     | None => json_status 404 (Message "Image not found")
     | Some image =>
         try_catch
           (await_delete env (Image.cloudinaryPublicId image))
           (fun cloudinaryError =>
              console_error "Cloudinary delete error:" cloudinaryError) ;;;
         Image_findByIdAndDelete (Image._id image) ;;;
         json (Message "Image deleted successfully")
     end)
    (fun error =>
       console_error "Delete image error:" error ;;;
       json_status 500 (Message "Server error while deleting image")).

(** ** The router *)

(** What a route leaves behind: a response, an error handed to [next] for
    the application to deal with, or a rejected handler promise. *)
Inductive RouteResult :=
| Responded (r : Response)
| Next (e : JsError)
| Rejected (e : JsError).

(** The error middleware registered after the routes. *)
Definition multer_error_handler (error : JsError) : RouteResult :=
  match error with
  | MulterError code message =>
      if String.eqb code "LIMIT_FILE_SIZE"
      then Responded {| status := 400;
                        body := Message "File size too large. Maximum size is 5MB." |}
      else Responded {| status := 400;
                        body := Message ("File upload error: " ++ message) |}
  | _ => Next error
  end.

Definition run_handler (m : M Response) (w : World) : RouteResult * World :=
  match m w with
  | (Return r, w') => (Responded r, w')
  | (Throw e, w') => (Rejected e, w')
  end.

(** [POST /upload] for an authenticated caller: multer, then either the
    handler or, on an intake error, the error middleware. *)
Definition post_upload_route (env : Env) (penv : ProcessEnv) (user : ObjectId)
    (req : UploadRequest) (w : World) : RouteResult * World :=
  match upload_single penv req with
  | inl e => (multer_error_handler e, w)
  | inr file => run_handler (post_upload env user (field_name req) (field_folderId req) file) w
  end.

(** ** A small regular-expression engine for sample environments

    The patterns made of ordinary characters and dots, on which the engine
    computes what PCRE computes for an unanchored search; it declines every
    other pattern and every option string but the empty one and [i]. *)

Module RegexFragment.

Inductive atom := Lit (c : ascii) | Dot.

Definition isMeta (c : ascii) : bool :=
  existsb (Ascii.eqb c)
    ["\"%char; "^"%char; "$"%char; "."%char; "["%char; "]"%char; "|"%char;
     "("%char; ")"%char; "?"%char; "*"%char; "+"%char; "{"%char; "}"%char].

Fixpoint parse (p : string) : option (list atom) :=
  match p with
  | EmptyString => Some []
  | String c r =>
      if Ascii.eqb c "."%char then option_map (cons Dot) (parse r)
      else if isMeta c then None
      else option_map (cons (Lit c)) (parse r)
  end.

Definition lower (c : ascii) : ascii :=
  let n := N_of_ascii c in
  if ((65 <=? n) && (n <=? 90))%N then ascii_of_N (n + 32) else c.

Definition matchAtom (caseless : bool) (a : atom) (c : ascii) : bool :=
  match a with
  | Dot => negb (Ascii.eqb c "010"%char)
  | Lit x => if caseless then Ascii.eqb (lower x) (lower c) else Ascii.eqb x c
  end.

Fixpoint matchHere (caseless : bool) (atoms : list atom) (s : string) : bool :=
  match atoms, s with
  | [], _ => true
  | a :: r, String c s' => matchAtom caseless a c && matchHere caseless r s'
  | _ :: _, EmptyString => false
  end.

Fixpoint search (caseless : bool) (atoms : list atom) (s : string) : bool :=
  matchHere caseless atoms s ||
  match s with
  | EmptyString => false
  | String _ r => search caseless atoms r
  end.

(** The patterns without any special character. *)
Fixpoint isLiteral (p : string) : bool :=
  match p with
  | EmptyString => true
  | String c r => negb (isMeta c) && isLiteral r
  end.

Definition compile (pattern options : string) : option (string -> bool) :=
  match parse pattern with
  | Some atoms =>
      if String.eqb options "i" then Some (search true atoms)
      else if String.eqb options EmptyString then Some (search false atoms)
      else None
  | None => None
  end.

End RegexFragment.

(** ** Sample data *)

(** The format of an id as text: 24 hexadecimal digits. *)
Definition isHexDigit (c : ascii) : bool :=
  match JS.digitValue c with
  | Some d => (d <? 16)%N
  | None => false
  end.

Fixpoint allHex (s : string) : bool :=
  match s with
  | EmptyString => true
  | String c r => isHexDigit c && allHex r
  end.

Definition objectIdFormat (s : string) : option string :=
  if Nat.eqb (String.length s) 24 && allHex s then None
  else Some ("Cast to ObjectId failed for value "
             ++ String "034"%char (s ++ String "034"%char " (type string)"))%string.

Definition sample_env : Env := {|
  Date_now := 1700000000000;
  new_ObjectId := "i9";
  uploadToCloudinary := fun _ folder id =>
    inr {| secure_url := "https://cdn.example/" ++ folder ++ "/" ++ id;
           public_id := folder ++ "/" ++ id |};
  deleteFromCloudinary := fun _ => None;
  validate := fun _ => [];
  regex := RegexFragment.compile;
  castObjectId := objectIdFormat |}.

(** The same collaborators, with object storage out of order. *)
Definition storage_down_env : Env := {|
  Date_now := Date_now sample_env;
  new_ObjectId := new_ObjectId sample_env;
  uploadToCloudinary := fun _ _ _ => inl (Error "ECONNRESET");
  deleteFromCloudinary := fun _ => Some (Error "ECONNRESET");
  validate := validate sample_env;
  regex := regex sample_env;
  castObjectId := castObjectId sample_env |}.

(** The same collaborators, with a schema that bounds the length of names. *)
Definition strict_schema_env : Env := {|
  Date_now := Date_now sample_env;
  new_ObjectId := new_ObjectId sample_env;
  uploadToCloudinary := uploadToCloudinary sample_env;
  deleteFromCloudinary := deleteFromCloudinary sample_env;
  validate := fun i =>
    if (8 <? String.length (Image.name i))%nat
    then ["Image name cannot exceed 8 characters"] else [];
  regex := regex sample_env;
  castObjectId := castObjectId sample_env |}.

Definition sample_folders : list Folder.t :=
  [ Folder.mk "f1" "u1" "Pets" "/Pets";
    Folder.mk "f2" "u2" "Work" "/Work" ].

Definition sample_images : list Image.t :=
  [ Image.mk "i1" "dog.png" "https://cdn.example/dog" "pid-dog" (Some "f1") "u1" 10 "image/png";
    Image.mk "i2" "Cat.png" "https://cdn.example/cat" "pid-cat" (Some "f1") "u1" 20 "image/png";
    Image.mk "i3" "root.gif" "https://cdn.example/root" "pid-root" None "u1" 30 "image/gif";
    Image.mk "i4" "dog.png" "https://cdn.example/dog2" "pid-dog2" (Some "f2") "u2" 40 "image/png" ].

Definition sample_world : World :=
  {| folders := sample_folders; images := sample_images; console := [] |}.

Definition sample_file : File :=
  {| buffer := [Byte.x89; Byte.x50; Byte.x4e; Byte.x47]; size := 4; mimetype := "image/png" |}.

(** The caller's folders with no image in them yet. *)
Definition empty_world : World :=
  {| folders := sample_folders; images := []; console := [] |}.

(** A collection whose ids are written as the database writes them. *)
Definition hex_world : World :=
  {| folders := [ Folder.mk "64b7f0c2a1d3e4f5a6b7c8aa" "u1" "Pets" "/Pets" ];
     images := [ Image.mk "64b7f0c2a1d3e4f5a6b7c8d9" "dog.png" "https://cdn.example/dog"
                   "pid-dog" (Some "64b7f0c2a1d3e4f5a6b7c8aa") "u1" 10 "image/png" ];
     console := [] |}.

(** A collection whose names have no dot in them. *)
Definition plain_images : list Image.t :=
  [ Image.mk "p1" "dog" "https://cdn.example/p1" "pid-p1" (Some "f1") "u1" 10 "image/png";
    Image.mk "p2" "cat" "https://cdn.example/p2" "pid-p2" (Some "f1") "u1" 20 "image/png" ].

Definition plain_world : World :=
  {| folders := sample_folders; images := plain_images; console := [] |}.

Definition default_penv : ProcessEnv :=
  {| FILE_SIZE_LIMIT := None; ALLOWED_FILE_TYPES := None |}.

Definition small_limit_penv : ProcessEnv :=
  {| FILE_SIZE_LIMIT := Some "3"; ALLOWED_FILE_TYPES := None |}.

Definition bmp_request : UploadRequest :=
  {| field_name := Some "scan.bmp"; field_folderId := Some "f1";
     part_image := Some {| part_mimetype := "image/bmp";
                           part_data := [Byte.x42; Byte.x4d] |} |}.

Definition png_request : UploadRequest :=
  {| field_name := Some "new.png"; field_folderId := Some "f1";
     part_image := Some {| part_mimetype := "image/png";
                           part_data := [Byte.x89; Byte.x50; Byte.x4e; Byte.x47] |} |}.

Definition long_name_request : UploadRequest :=
  {| field_name := Some "holiday-2024.png"; field_folderId := Some "f1";
     part_image := Some {| part_mimetype := "image/png";
                           part_data := [Byte.x89; Byte.x50; Byte.x4e; Byte.x47] |} |}.

(** ** Vocabulary of the statements *)

(** A name that is missing or blank after trimming. *)
Definition blank (o : option string) : Prop :=
  match o with
  | None => True
  | Some s => JS.trim s = EmptyString
  end.

(** A parameter that is missing (absent or empty). *)
Definition missing (o : option string) : Prop :=
  match o with
  | None => True
  | Some s => s = EmptyString
  end.

(** A Folder with the id exists and belongs to the caller. *)
Definition folderOwned (w : World) (user f : ObjectId) : Prop :=
  exists d, In d (folders w) /\ Folder._id d = f /\ Folder.owner d = user.

(** An Image with (owner, folder id, name) exists. *)
Definition nameTaken (w : World) (user f : ObjectId) (n : string) : Prop :=
  exists i, In i (images w) /\ Image.owner i = user
            /\ Image.folder i = Some f /\ Image.name i = n.


Definition nameLe (a b : Image.t) : Prop :=
  String.leb (Image.name a) (Image.name b) = true.

(** No two documents share owner, folder and name. *)
Definition uniqueNames (l : list Image.t) : Prop :=
  forall a b, In a l -> In b l ->
    Image.owner a = Image.owner b -> Image.folder a = Image.folder b ->
    Image.name a = Image.name b -> Image._id a = Image._id b.

Definition uniqueIds (l : list Image.t) : Prop := NoDup (map Image._id l).

(** The test of a filter with an exact name. *)
Definition siblingTest (user f : ObjectId) (n : string) (i : Image.t) : bool :=
  Image.matchId None i && String.eqb (Image.owner i) user
  && Image.matchFolder (Some (Image.FolderEq f)) i
  && String.eqb (Image.name i) n.

(** The test of the filter [{ _id: id, owner: user }]. *)
Definition ownTest (user id : ObjectId) (i : Image.t) : bool :=
  Image.matchId (Some (Image.IdEq id)) i && String.eqb (Image.owner i) user
  && Image.matchFolder None i && true.

(** The test of the duplicate check of a rename. *)
Definition otherTest (user id : ObjectId) (c : Image.FolderCond) (n : string)
    (i : Image.t) : bool :=
  Image.matchId (Some (Image.IdNe id)) i && String.eqb (Image.owner i) user
  && Image.matchFolder (Some c) i && String.eqb (Image.name i) n.

(** The caller's images without a folder, and those in a folder. *)
Definition inRoot (user : ObjectId) (i : Image.t) : bool :=
  String.eqb (Image.owner i) user
  && match Image.folder i with None => true | Some _ => false end.

Definition inFolder (user f : ObjectId) (i : Image.t) : bool :=
  String.eqb (Image.owner i) user
  && match Image.folder i with None => false | Some g => String.eqb g f end.

(** Letter case: the letters A to Z folded to lower case. *)
Fixpoint foldCase (s : string) : string :=
  match s with
  | EmptyString => EmptyString
  | String c r => String (RegexFragment.lower c) (foldCase r)
  end.

(** Two names that differ, and only in letter case. *)
Definition caseVariant (a b : string) : Prop := a <> b /\ foldCase a = foldCase b.

(** [name] contains [q] as a substring, letter case ignored. *)
Definition containsIgnoringCase (q name : string) : bool :=
  JS.includes (foldCase name) (foldCase q).

(** The test of the search filter for a compiled pattern. *)
Definition searchTest (user : ObjectId) (test : string -> bool) (i : Image.t) : bool :=
  Image.matchId None i && String.eqb (Image.owner i) user
  && Image.matchFolder None i && test (Image.name i).

(** What the search is said to return: the caller's images whose name
    contains the trimmed query, letter case ignored, by name, at most 50. *)
Definition searchBySubstring (user : ObjectId) (q : string) (l : list Image.t)
  : list Image.t :=
  firstn 50 (Image.sortByName
               (filter (fun i => String.eqb (Image.owner i) user
                                 && containsIgnoringCase (JS.trim q) (Image.name i)) l)).

(** The state that the handlers keep: ids are unique, no two images share
    owner, folder and name, names are not empty, every folder reference
    resolves, and every document passes the schema. *)
Record consistent (env : Env) (w : World) : Prop := {
  ids_unique : uniqueIds (images w);
  names_unique : uniqueNames (images w);
  names_nonempty : forall i, In i (images w) -> Image.name i <> EmptyString;
  folders_resolve : forall i, In i (images w) -> populateFolder (folders w) i <> Null;
  docs_valid : forall i, In i (images w) -> validate env i = [] }.

(** The cast of a request string to a Folder id and to an Image id, in a
    given world: [None] when it is cast, otherwise the error thrown. *)
Definition folderIdCast (env : Env) (w : World) (s : string) : option JsError :=
  castId env (map Folder._id (folders w)) s.

Definition imageIdCast (env : Env) (w : World) (s : string) : option JsError :=
  castId env (map Image._id (images w)) s.

(** The queries of the handlers. *)
Definition siblingQuery (user f : ObjectId) (n : string) : Image.Query :=
  {| Image.q_id := None; Image.q_owner := user;
     Image.q_folder := Some (Image.FolderEq f); Image.q_name := Some (Image.NameEq n) |}.

Definition ownQuery (user id : ObjectId) : Image.Query :=
  {| Image.q_id := Some (Image.IdEq id); Image.q_owner := user;
     Image.q_folder := None; Image.q_name := None |}.

Definition otherQuery (user id : ObjectId) (c : Image.FolderCond) (n : string)
  : Image.Query :=
  {| Image.q_id := Some (Image.IdNe id); Image.q_owner := user;
     Image.q_folder := Some c; Image.q_name := Some (Image.NameEq n) |}.

(** The world after a message was written to the console. *)
Definition logged (label : string) (e : JsError) (w : World) : World :=
  {| folders := folders w; images := images w; console := console w ++ [(label, e)] |}.

Definition message (s : nat) (m : string) : Response :=
  {| status := s; body := Message m |}.

(** Every stored name is its own trimmed form. *)
Definition namesTrimmed (w : World) : Prop :=
  forall i, In i (images w) -> JS.trim (Image.name i) = Image.name i.

(** The characters a placement id may carry after sanitising. *)
Definition isPlacementChar (c : ascii) : bool :=
  JS.isAlnum c || Ascii.eqb c "_"%char.

Fixpoint allChars (p : ascii -> bool) (s : string) : bool :=
  match s with
  | EmptyString => true
  | String c r => p c && allChars p r
  end.

(** A string without a comma. *)
Definition commaFree (s : string) : bool :=
  allChars (fun c => negb (Ascii.eqb c ","%char)) s.

(** The response carries a created image. *)
Definition created (r : Response) (d : Image.t) (fs : list Folder.t) : Prop :=
  r = {| status := 201; body := ImageJson (populate fs d) |}.

(** * Properties *)

Arguments Image.matchFolder : simpl never.
Arguments Image.matchId : simpl never.

(** ** Primitives on examples *)

Example trim_ex : JS.trim "  cat.png  " = "cat.png".
Proof. reflexivity. Qed.

Example parseInt_ex :
  JS.parseInt " 42px" = Some 42%Z /\ JS.parseInt "0x1F" = Some 31%Z
  /\ JS.parseInt "abc" = None /\ JS.parseInt "-7" = Some (-7)%Z.
Proof. repeat split; reflexivity. Qed.

Example split_ex :
  JS.split ","%char "image/png,image/webp" = ["image/png"; "image/webp"].
Proof. reflexivity. Qed.

Example placementId_ex :
  placementId sample_env "f1" " my cat.png " = "f1_1700000000000_my_cat_png".
Proof. reflexivity. Qed.

Example fileSize_ex :
  fileSize {| FILE_SIZE_LIMIT := None; ALLOWED_FILE_TYPES := None |} = 5000000%Z
  /\ fileSize {| FILE_SIZE_LIMIT := Some "1000"; ALLOWED_FILE_TYPES := None |} = 1000%Z
  /\ fileSize {| FILE_SIZE_LIMIT := Some "0"; ALLOWED_FILE_TYPES := None |} = 5000000%Z
  /\ fileSize {| FILE_SIZE_LIMIT := Some "big"; ALLOWED_FILE_TYPES := None |} = 5000000%Z.
Proof. repeat split; reflexivity. Qed.

Example regex_fragment_ex :
  option_map (fun t => t "Cat.png") (RegexFragment.compile "cAT" "i") = Some true
  /\ option_map (fun t => t "Cat.png") (RegexFragment.compile "cAT" EmptyString) = Some false
  /\ option_map (fun t => t "Cat.png") (RegexFragment.compile "C.t" "i") = Some true
  /\ option_map (fun t => t "Cat.png") (RegexFragment.compile "(" "i") = None
  /\ option_map (fun t => t "Cat.png") (RegexFragment.compile "a\" "i") = None.
Proof. repeat split; reflexivity. Qed.

(** ** Truthiness and trimming *)

Lemma truthy_true s : JS.truthy s = true <-> s <> EmptyString.
Proof. destruct s; simpl; split; congruence. Qed.

Lemma ifBlank_blank {A} (o : option string) (b : A) (k : string -> A) :
  blank o -> ifBlank o b k = b.
Proof.
  destruct o as [s|]; simpl; [|reflexivity].
  intros ->. simpl. now rewrite andb_false_r.
Qed.

Lemma ifBlank_given {A} (s : string) (b : A) (k : string -> A) :
  JS.trim s <> EmptyString -> ifBlank (Some s) b k = k s.
Proof.
  intros H. simpl.
  assert (Hs : JS.truthy s = true) by (destruct s; [now elim H | reflexivity]).
  apply truthy_true in H. now rewrite Hs, H.
Qed.

Lemma ifFalsy_missing {A} (o : option string) (b : A) (k : string -> A) :
  missing o -> ifFalsy o b k = b.
Proof. destruct o as [s|]; simpl; [intros ->|]; reflexivity. Qed.

Lemma ifFalsy_given {A} (s : string) (b : A) (k : string -> A) :
  s <> EmptyString -> ifFalsy (Some s) b k = k s.
Proof. intros H. simpl. apply truthy_true in H. now rewrite H. Qed.

(** ** Lookups *)

Lemma Folder_findOne_none id user l :
  ~ (exists d, In d l /\ Folder._id d = id /\ Folder.owner d = user) ->
  Folder.findOne id user l = None.
Proof.
  intros H. unfold Folder.findOne.
  destruct (find _ l) as [d|] eqn:E; [|reflexivity].
  apply find_some in E. destruct E as [Hin Hd].
  apply andb_true_iff in Hd. destruct Hd as [H1 H2].
  apply String.eqb_eq in H1, H2. elim H. now exists d.
Qed.

Lemma Folder_findOne_some id user l :
  (exists d, In d l /\ Folder._id d = id /\ Folder.owner d = user) ->
  exists d, Folder.findOne id user l = Some d.
Proof.
  intros (d & Hin & H1 & H2). unfold Folder.findOne.
  destruct (find _ l) as [d'|] eqn:E; [now exists d'|].
  apply (find_none _ _ E) in Hin. subst.
  now rewrite !String.eqb_refl in Hin.
Qed.

Lemma siblingTest_true user f n i :
  siblingTest user f n i = true <->
  Image.owner i = user /\ Image.folder i = Some f /\ Image.name i = n.
Proof.
  unfold siblingTest, Image.matchFolder, Image.matchId. simpl.
  destruct (Image.folder i) as [g|].
  - rewrite !andb_true_iff, !String.eqb_eq. split.
    + intros [[-> ->] ->]. auto.
    + intros (-> & [= ->] & ->). auto.
  - rewrite andb_false_r. simpl. split; [discriminate|]. intros (_ & [=] & _).
Qed.

Lemma find_sibling_none w user f n :
  ~ nameTaken w user f n -> find (siblingTest user f n) (images w) = None.
Proof.
  intros H. destruct (find _ _) as [i|] eqn:E; [|reflexivity].
  apply find_some in E. destruct E as [Hin Hi].
  apply siblingTest_true in Hi. elim H. now exists i.
Qed.

Lemma find_sibling_some w user f n :
  nameTaken w user f n -> exists i, find (siblingTest user f n) (images w) = Some i.
Proof.
  intros (i & Hin & Hi). destruct (find _ _) as [j|] eqn:E; [now exists j|].
  apply (find_none _ _ E) in Hin.
  assert (siblingTest user f n i = true) by now apply siblingTest_true.
  congruence.
Qed.

(** ** Casts *)

Lemma castId_stored env stored s : In s stored -> castId env stored s = None.
Proof.
  intros H. unfold castId.
  replace (existsb (String.eqb s) stored) with true; [reflexivity|].
  symmetry. apply existsb_exists. exists s. split; [exact H | apply String.eqb_refl].
Qed.

Lemma castId_error env stored s e :
  castId env stored s = Some e ->
  exists m, e = CastError m /\ castObjectId env s = Some m /\ ~ In s stored.
Proof.
  unfold castId. destruct (existsb (String.eqb s) stored) eqn:E; [discriminate|].
  destruct (castObjectId env s) as [m|]; [|discriminate].
  intros [= <-]. exists m. repeat split. intros Hin.
  assert (existsb (String.eqb s) stored = true); [|congruence].
  apply existsb_exists. exists s. split; [exact Hin | apply String.eqb_refl].
Qed.

Lemma castId_format env stored s : castObjectId env s = None -> castId env stored s = None.
Proof. intros H. unfold castId. rewrite H. now destruct (existsb _ stored). Qed.

Lemma folderOwned_cast env w user f : folderOwned w user f -> folderIdCast env w f = None.
Proof.
  intros (d & Hin & Hid & _). apply castId_stored. rewrite <- Hid. now apply in_map.
Qed.

Lemma stored_image_cast env w i : In i (images w) -> imageIdCast env w (Image._id i) = None.
Proof. intros H. apply castId_stored. now apply in_map. Qed.

Lemma Folder_findOne_cast env id user w :
  folderIdCast env w id = None ->
  Folder_findOne env id user w = (Return (Folder.findOne id user (folders w)), w).
Proof. unfold folderIdCast, Folder_findOne. now intros ->. Qed.

Lemma Folder_findOne_fault env id user w e :
  folderIdCast env w id = Some e -> Folder_findOne env id user w = (Throw e, w).
Proof. unfold folderIdCast, Folder_findOne. now intros ->. Qed.

Lemma Folder_findOne_found env id user w d :
  Folder.findOne id user (folders w) = Some d -> folderIdCast env w id = None.
Proof.
  intros E. apply find_some in E. destruct E as [Hin Hd].
  apply andb_true_iff in Hd. destruct Hd as [H1 _]. apply String.eqb_eq in H1.
  apply castId_stored. rewrite <- H1. now apply in_map.
Qed.

Lemma Image_findOne_sibling env user f n w :
  folderIdCast env w f = None ->
  Image_findOne env (siblingQuery user f n) w
  = (Return (find (siblingTest user f n) (images w)), w).
Proof.
  unfold folderIdCast, Image_findOne, compileQuery, siblingQuery. simpl. now intros ->.
Qed.

Lemma Image_findOne_own env user id w :
  imageIdCast env w id = None ->
  Image_findOne env (ownQuery user id) w = (Return (find (ownTest user id) (images w)), w).
Proof.
  unfold imageIdCast, Image_findOne, compileQuery, ownQuery. simpl. now intros ->.
Qed.

Lemma Image_findOne_own_fault env user id w e :
  imageIdCast env w id = Some e ->
  Image_findOne env (ownQuery user id) w = (Throw e, w).
Proof.
  unfold imageIdCast, Image_findOne, compileQuery, ownQuery. simpl. now intros ->.
Qed.

Lemma populated_cast env w i :
  match folderCondOf (populateFolder (folders w) i) with
  | Image.FolderEq f => folderIdCast env w f
  | _ => None
  end = None.
Proof.
  unfold populateFolder. destruct (Image.folder i) as [g|]; [|reflexivity].
  unfold Folder.findById. destruct (find _ (folders w)) as [d|] eqn:E; [|reflexivity].
  simpl. apply find_some in E. destruct E as [Hin _].
  apply castId_stored. now apply in_map.
Qed.

Lemma Image_findOne_other env user i n w :
  Image_findOne env
    (otherQuery user (Image._id i) (folderCondOf (populateFolder (folders w) i)) n) w
  = (Return (find (otherTest user (Image._id i)
                     (folderCondOf (populateFolder (folders w) i)) n) (images w)), w).
Proof.
  pose proof (populated_cast env w i) as H.
  unfold folderIdCast in H. unfold Image_findOne, compileQuery, otherQuery. simpl.
  now rewrite H.
Qed.

(** ** Upload *)

Lemma post_upload_blank_name env user name folderId file w :
  blank name ->
  post_upload env user name folderId file w
  = (Return (message 400 "Image name is required"), w).
Proof.
  intros Hb. unfold post_upload, try_catch. now rewrite (ifBlank_blank _ _ _ Hb).
Qed.

Lemma post_upload_missing_folderId env user n folderId file w :
  JS.trim n <> EmptyString -> missing folderId ->
  post_upload env user (Some n) folderId file w
  = (Return (message 400 "Folder ID is required"), w).
Proof.
  intros Hn Hf. unfold post_upload, try_catch.
  now rewrite (ifBlank_given _ _ _ Hn), (ifFalsy_missing _ _ _ Hf).
Qed.

Lemma post_upload_missing_file env user n f w :
  JS.trim n <> EmptyString -> f <> EmptyString ->
  post_upload env user (Some n) (Some f) None w
  = (Return (message 400 "Image file is required"), w).
Proof.
  intros Hn Hf. unfold post_upload, try_catch.
  now rewrite (ifBlank_given _ _ _ Hn), (ifFalsy_given _ _ _ Hf).
Qed.

Lemma post_upload_foreign_folder env user n f file w :
  JS.trim n <> EmptyString -> f <> EmptyString ->
  folderIdCast env w f = None -> ~ folderOwned w user f ->
  post_upload env user (Some n) (Some f) (Some file) w
  = (Return (message 404 "Folder not found"), w).
Proof.
  intros Hn Hf Hc Hno. unfold post_upload, try_catch.
  rewrite (ifBlank_given _ _ _ Hn), (ifFalsy_given _ _ _ Hf).
  unfold bind. rewrite (Folder_findOne_cast _ _ _ _ Hc).
  now rewrite (Folder_findOne_none _ _ _ Hno).
Qed.

(** The answer of the outer [catch] of the upload handler to a CastError. *)
Lemma post_upload_folder_fault env user n f file w e :
  JS.trim n <> EmptyString -> f <> EmptyString ->
  folderIdCast env w f = Some e ->
  post_upload env user (Some n) (Some f) (Some file) w
  = (Return (if JS.includes (error_message e) "Invalid file type"
             then message 400 (error_message e)
             else message 500 "Server error while uploading image"),
     logged "Upload image error:" e w).
Proof.
  intros Hn Hf Hc. unfold post_upload, try_catch.
  rewrite (ifBlank_given _ _ _ Hn), (ifFalsy_given _ _ _ Hf).
  unfold bind at 1. rewrite (Folder_findOne_fault _ _ _ _ _ Hc).
  destruct (castId_error _ _ _ _ Hc) as (m & -> & _ & _).
  unfold bind, console_error. simpl.
  destruct (JS.includes m "Invalid file type"); reflexivity.
Qed.

Lemma post_upload_name_taken env user n f file w :
  JS.trim n <> EmptyString -> f <> EmptyString -> folderOwned w user f ->
  nameTaken w user f (JS.trim n) ->
  post_upload env user (Some n) (Some f) (Some file) w
  = (Return (message 400 "Image with this name already exists in the folder"), w).
Proof.
  intros Hn Hf Hown Htaken. unfold post_upload, try_catch.
  rewrite (ifBlank_given _ _ _ Hn), (ifFalsy_given _ _ _ Hf).
  pose proof (folderOwned_cast env _ _ _ Hown) as Hc.
  unfold bind. rewrite (Folder_findOne_cast _ _ _ _ Hc).
  destruct (Folder_findOne_some _ _ _ Hown) as [d ->].
  fold (siblingQuery user f (JS.trim n)).
  rewrite (Image_findOne_sibling _ _ _ _ _ Hc).
  destruct (find_sibling_some _ _ _ _ Htaken) as [i ->]. reflexivity.
Qed.


(** Once the checks have passed the handler is its inner block; nothing
    inside it throws past the inner [catch]. *)
Lemma post_upload_checked env user n f file w :
  JS.trim n <> EmptyString -> f <> EmptyString ->
  folderOwned w user f -> ~ nameTaken w user f (JS.trim n) ->
  post_upload env user (Some n) (Some f) (Some file) w
  = uploadAndSave env user n f file w.
Proof.
  intros Hn Hf Hown Hfree. unfold post_upload, try_catch at 1.
  rewrite (ifBlank_given _ _ _ Hn), (ifFalsy_given _ _ _ Hf).
  pose proof (folderOwned_cast env _ _ _ Hown) as Hc.
  unfold bind at 1. rewrite (Folder_findOne_cast _ _ _ _ Hc).
  destruct (Folder_findOne_some _ _ _ Hown) as [d ->].
  fold (siblingQuery user f (JS.trim n)).
  unfold bind at 1. rewrite (Image_findOne_sibling _ _ _ _ _ Hc).
  rewrite (find_sibling_none _ _ _ _ Hfree).
  unfold uploadAndSave, try_catch.
  destruct (bind _ _ w) as [[r|e] w']; reflexivity.
Qed.

Lemma uploadAndSave_storage_failure env user n f file w e :
  uploadToCloudinary env (buffer file) (placementFolder user) (placementId env f n) = inl e ->
  uploadAndSave env user n f file w
  = (Return (message 500 "Failed to upload image to cloud storage"),
     logged "Cloudinary upload error:" e w).
Proof.
  intros H. unfold uploadAndSave, try_catch, bind, await_upload. now rewrite H.
Qed.

Lemma uploadAndSave_validation_failure env user n f file w r m ms :
  uploadToCloudinary env (buffer file) (placementFolder user) (placementId env f n) = inr r ->
  validate env (newImage env user n f file r) = m :: ms ->
  uploadAndSave env user n f file w
  = (Return (message 500 "Failed to upload image to cloud storage"),
     logged "Cloudinary upload error:" (ValidationError (m :: ms)) w).
Proof.
  intros H Hv. unfold uploadAndSave, try_catch, bind, await_upload, Image_save.
  now rewrite H, Hv.
Qed.

Lemma uploadAndSave_created env user n f file w r :
  uploadToCloudinary env (buffer file) (placementFolder user) (placementId env f n) = inr r ->
  validate env (newImage env user n f file r) = [] ->
  (forall i, In i (images w) -> Image._id i <> new_ObjectId env) ->
  uploadAndSave env user n f file w
  = (Return {| status := 201;
               body := ImageJson (populate (folders w) (newImage env user n f file r)) |},
     set_images (images w ++ [newImage env user n f file r]) w).
Proof.
  intros H Hv Hfresh. unfold uploadAndSave, try_catch, bind, await_upload, Image_save.
  rewrite H, Hv.
  replace (existsb _ (images w)) with false; [reflexivity|].
  symmetry. apply not_true_is_false. intros Hex.
  apply existsb_exists in Hex. destruct Hex as (i & Hin & Hi).
  apply String.eqb_eq in Hi. now apply (Hfresh i Hin).
Qed.

(** C1. When an upload has passed every check and the storage call fails,
    the response is 500 "Failed to upload image to cloud storage" and no
    Image is created: both collections are as before, and the failure is
    on the console. *)
Theorem post_upload_storage_failure env user n f file w e :
  JS.trim n <> EmptyString -> f <> EmptyString ->
  folderOwned w user f -> ~ nameTaken w user f (JS.trim n) ->
  uploadToCloudinary env (buffer file) (placementFolder user) (placementId env f n) = inl e ->
  exists w',
    post_upload env user (Some n) (Some f) (Some file) w
    = (Return (message 500 "Failed to upload image to cloud storage"), w')
    /\ images w' = images w /\ folders w' = folders w
    /\ console w' = console w ++ [("Cloudinary upload error:", e)].
Proof.
  intros Hn Hf Hown Hfree He.
  exists (logged "Cloudinary upload error:" e w).
  rewrite (post_upload_checked _ _ _ _ _ _ Hn Hf Hown Hfree).
  rewrite (uploadAndSave_storage_failure _ _ _ _ _ _ _ He). auto.
Qed.

(** Closed goals about the sample data. *)
Ltac sample_absent :=
  let d := fresh "d" in
  let H := fresh "H" in
  intros (d & H & ?); simpl in H;
  repeat (destruct H as [H|H]; [subst d; cbv in *; intuition congruence|]);
  exact H.

Ltac sample_nonempty := vm_compute; discriminate.



Lemma post_upload_storage_failure_witness :
  exists w',
    post_upload storage_down_env "u1" (Some "new.png") (Some "f1") (Some sample_file)
      sample_world
    = (Return (message 500 "Failed to upload image to cloud storage"), w')
    /\ images w' = images sample_world /\ folders w' = folders sample_world
    /\ console w' = console sample_world ++ [("Cloudinary upload error:", Error "ECONNRESET")].
Proof.
  apply (post_upload_storage_failure storage_down_env "u1" "new.png" "f1" sample_file
           sample_world (Error "ECONNRESET")).
  - sample_nonempty.
  - discriminate.
  - exists (Folder.mk "f1" "u1" "Pets" "/Pets"). simpl. auto.
  - sample_absent.
  - reflexivity.
Defined.

(** ** Documents by id *)

Lemma find_own user i l :
  uniqueIds l -> In i l -> Image.owner i = user ->
  find (ownTest user (Image._id i)) l = Some i.
Proof.
  unfold uniqueIds. induction l as [|x r IH]; simpl; [easy|].
  intros Hnd [->|Hin] Ho.
  - unfold ownTest, Image.matchId, Image.matchFolder.
    now rewrite Ho, !String.eqb_refl.
  - inversion Hnd as [|? ? Hx Hr]; subst.
    unfold ownTest at 1. unfold Image.matchId at 1.
    destruct (String.eqb (Image._id x) (Image._id i)) eqn:E.
    + apply String.eqb_eq in E. elim Hx. rewrite E. now apply in_map.
    + simpl. now apply IH.
Qed.


Lemma removeById_filter id l :
  uniqueIds l ->
  Image.removeById id l = filter (fun j => negb (String.eqb (Image._id j) id)) l.
Proof.
  unfold uniqueIds. induction l as [|x r IH]; simpl; [easy|].
  intros Hnd. inversion Hnd as [|? ? Hx Hr]; subst.
  destruct (String.eqb (Image._id x) id) eqn:E; simpl.
  - apply String.eqb_eq in E. subst id.
    clear IH Hnd Hr. induction r as [|y r IH]; simpl; [reflexivity|].
    destruct (String.eqb (Image._id y) (Image._id x)) eqn:E; simpl.
    + apply String.eqb_eq in E. elim Hx. simpl. now left.
    + f_equal. apply IH. intros Hin. apply Hx. simpl. now right.
  - f_equal. now apply IH.
Qed.

Lemma replaceById_same i l :
  uniqueIds l -> In i l -> Image.replaceById i l = l.
Proof.
  unfold uniqueIds, Image.replaceById. induction l as [|x r IH]; simpl; [easy|].
  intros Hnd Hin. inversion Hnd as [|? ? Hx Hr]; subst.
  destruct Hin as [->|Hin].
  - rewrite String.eqb_refl. f_equal.
    clear IH Hnd Hr. induction r as [|y r IH]; simpl; [reflexivity|].
    destruct (String.eqb (Image._id y) (Image._id i)) eqn:E.
    + apply String.eqb_eq in E. elim Hx. simpl. now left.
    + f_equal. apply IH. intros H. apply Hx. simpl. now right.
  - destruct (String.eqb (Image._id x) (Image._id i)) eqn:E.
    + apply String.eqb_eq in E. elim Hx. rewrite E. now apply in_map.
    + f_equal. now apply IH.
Qed.

(** ** Delete *)

Lemma find_own_stored user id i l :
  find (ownTest user id) l = Some i -> In i l /\ Image._id i = id.
Proof.
  intros E. apply find_some in E. destruct E as [Hin Hi].
  unfold ownTest, Image.matchId in Hi.
  rewrite !andb_true_iff in Hi. destruct Hi as [[[H1 _] _] _].
  apply String.eqb_eq in H1. auto.
Qed.

Lemma delete_id_absent env user id w :
  imageIdCast env w id = None ->
  find (ownTest user id) (images w) = None ->
  delete_id env user id w = (Return (message 404 "Image not found"), w).
Proof.
  intros Hc E. unfold delete_id, try_catch, bind.
  fold (ownQuery user id). rewrite (Image_findOne_own _ _ _ _ Hc). now rewrite E.
Qed.

Lemma delete_id_fault env user id w e :
  imageIdCast env w id = Some e ->
  delete_id env user id w
  = (Return (message 500 "Server error while deleting image"),
     logged "Delete image error:" e w).
Proof.
  intros Hc. unfold delete_id, try_catch, bind.
  fold (ownQuery user id). now rewrite (Image_findOne_own_fault _ _ _ _ _ Hc).
Qed.

Lemma delete_id_found env user id i w :
  find (ownTest user id) (images w) = Some i ->
  delete_id env user id w
  = (Return (message 200 "Image deleted successfully"),
     set_images (Image.removeById (Image._id i) (images w))
       match deleteFromCloudinary env (Image.cloudinaryPublicId i) with
       | None => w
       | Some e => logged "Cloudinary delete error:" e w
       end).
Proof.
  intros E. unfold delete_id, try_catch, bind.
  assert (Hc : imageIdCast env w id = None).
  { destruct (find_own_stored _ _ _ _ E) as [Hin <-]. now apply stored_image_cast. }
  fold (ownQuery user id). rewrite (Image_findOne_own _ _ _ _ Hc), E.
  unfold await_delete.
  destruct (deleteFromCloudinary env (Image.cloudinaryPublicId i)) as [e|]; reflexivity.
Qed.


Ltac sample_nodup :=
  unfold uniqueIds; simpl;
  repeat (constructor; [simpl; intuition discriminate|]); constructor.



(** ** Rename *)

Lemma put_id_checked env user id n i w :
  JS.trim n <> EmptyString ->
  find (ownTest user id) (images w) = Some i ->
  put_id env user id (Some n) w
  = match find (otherTest user (Image._id i)
                  (folderCondOf (populateFolder (folders w) i)) (JS.trim n)) (images w) with
    | Some _ =>
        (Return (message 400 "Image with this name already exists in the folder"), w)
    | None =>
        match validate env (Image.set_name (JS.trim n) i) with
        | [] =>
            (Return {| status := 200;
                       body := ImageJson {| doc := Image.set_name (JS.trim n) i;
                                            folder := populateFolder (folders w) i |} |},
             set_images (Image.replaceById (Image.set_name (JS.trim n) i) (images w)) w)
        | msgs =>
            (Return (message 500 "Server error while updating image"),
             logged "Update image error:" (ValidationError msgs) w)
        end
    end.
Proof.
  intros Hn Hi. unfold put_id, try_catch.
  rewrite (ifBlank_given _ _ _ Hn).
  assert (Hc : imageIdCast env w id = None).
  { destruct (find_own_stored _ _ _ _ Hi) as [Hin <-]. now apply stored_image_cast. }
  fold (ownQuery user id).
  unfold bind at 1. rewrite (Image_findOne_own _ _ _ _ Hc), Hi. clear Hi.
  unfold bind at 1. unfold Image_populate at 1. cbn [doc folder populate].
  fold (otherQuery user (Image._id i) (folderCondOf (populateFolder (folders w) i))
          (JS.trim n)).
  unfold bind at 1. rewrite Image_findOne_other.
  destruct (find _ (images w)) as [j|]; [reflexivity|].
  unfold bind, Image_save.
  destruct (validate env _) as [|m ms]; reflexivity.
Qed.

(** When the folder reference of [i] is absent or resolves, the folder
    condition of the duplicate check selects the images filed like [i]. *)
Lemma matchFolder_resolved fs i j :
  populateFolder fs i <> Null ->
  Image.matchFolder (Some (folderCondOf (populateFolder fs i))) j = true
  <-> Image.folder j = Image.folder i.
Proof.
  unfold populateFolder. destruct (Image.folder i) as [g|] eqn:Ei.
  - unfold Folder.findById. destruct (find _ fs) as [d|] eqn:Ed; [|easy].
    intros _. apply find_some in Ed. destruct Ed as [_ Ed].
    apply String.eqb_eq in Ed. simpl. rewrite Ed.
    unfold Image.matchFolder. destruct (Image.folder j) as [h|].
    + rewrite String.eqb_eq. split; congruence.
    + split; discriminate.
  - intros _. simpl. unfold Image.matchFolder.
    destruct (Image.folder j); split; congruence.
Qed.

Lemma find_other_none user n i w :
  populateFolder (folders w) i <> Null ->
  (forall j, In j (images w) -> Image._id j <> Image._id i -> Image.owner j = user ->
             Image.folder j = Image.folder i -> Image.name j <> n) ->
  find (otherTest user (Image._id i) (folderCondOf (populateFolder (folders w) i)) n)
    (images w) = None.
Proof.
  intros Hres Hfree. destruct (find _ _) as [j|] eqn:E; [|reflexivity].
  apply find_some in E. destruct E as [Hin Hj].
  unfold otherTest, Image.matchId in Hj.
  rewrite !andb_true_iff in Hj. destruct Hj as [[[H1 H2] H3] H4].
  apply negb_true_iff, String.eqb_neq in H1.
  apply String.eqb_eq in H2, H4.
  apply (matchFolder_resolved _ _ _ Hres) in H3.
  now elim (Hfree j Hin H1 H2 H3).
Qed.

Lemma set_name_same i : Image.set_name (Image.name i) i = i.
Proof. now destruct i. Qed.

Lemma set_images_same w : set_images (images w) w = w.
Proof. now destruct w. Qed.

(** A rename to the current name, with the facts it rests on spelled
    out. *)
Lemma put_id_same_name env user n i w :
  In i (images w) -> Image.owner i = user ->
  uniqueIds (images w) -> uniqueNames (images w) ->
  populateFolder (folders w) i <> Null ->
  JS.trim n = Image.name i -> Image.name i <> EmptyString ->
  validate env i = [] ->
  put_id env user (Image._id i) (Some n) w
  = (Return {| status := 200; body := ImageJson (populate (folders w) i) |}, w).
Proof.
  intros Hin Ho Hids Hnames Hres Hn Hne Hv.
  rewrite (put_id_checked env user (Image._id i) n i w).
  - rewrite Hn, (find_other_none user (Image.name i) i w Hres).
    + rewrite set_name_same, Hv, (replaceById_same _ _ Hids Hin), set_images_same.
      reflexivity.
    + intros j Hj Hid Hoj Hf Hnm. apply Hid.
      apply Hnames; auto. congruence.
  - now rewrite Hn.
  - now apply find_own.
Qed.

(** C8. A rename whose trimmed new name is the image's current name raises
    no Conflict: the duplicate check leaves the image itself out by id, and
    in a consistent collection nothing else shares its owner, folder and
    name.  The rename succeeds with 200 and the image with its folder
    expanded, and the collections are as before. *)
Theorem put_id_own_name env user n i w :
  consistent env w ->
  In i (images w) -> Image.owner i = user ->
  JS.trim n = Image.name i ->
  put_id env user (Image._id i) (Some n) w
  = (Return {| status := 200; body := ImageJson (populate (folders w) i) |}, w).
Proof.
  intros [H1 H2 H3 H4 H5] Hin Ho Hn.
  apply put_id_same_name; auto.
Qed.

Ltac sample_unique_names :=
  let a := fresh "a" in
  let b := fresh "b" in
  let Ha := fresh "Ha" in
  let Hb := fresh "Hb" in
  intros a b Ha Hb; simpl in Ha, Hb;
  repeat (destruct Ha as [Ha|Ha]; [subst a|]); try (now elim Ha);
  repeat (destruct Hb as [Hb|Hb]; [subst b|]); try (now elim Hb);
  simpl; intros; congruence.

Lemma put_id_own_name_witness :
  put_id sample_env "u1" "i2" (Some " Cat.png ") sample_world
  = (Return {| status := 200;
               body := ImageJson
                 {| doc := Image.mk "i2" "Cat.png" "https://cdn.example/cat" "pid-cat"
                             (Some "f1") "u1" 20 "image/png";
                    folder := Expanded {| ref_id := "f1"; ref_name := "Pets";
                                          ref_path := "/Pets" |} |} |},
     sample_world).
Proof.
  apply (put_id_own_name sample_env "u1" " Cat.png "
           (Image.mk "i2" "Cat.png" "https://cdn.example/cat" "pid-cat" (Some "f1") "u1"
              20 "image/png") sample_world).
  - constructor.
    + sample_nodup.
    + sample_unique_names.
    + intros i Hi. simpl in Hi.
      repeat (destruct Hi as [Hi|Hi]; [subst i; discriminate|]). now elim Hi.
    + intros i Hi. simpl in Hi.
      repeat (destruct Hi as [Hi|Hi]; [subst i; vm_compute; discriminate|]). now elim Hi.
    + intros i Hi. reflexivity.
  - simpl. auto.
  - reflexivity.
  - reflexivity.
Defined.

(** ** Letter case *)

(** C10. The duplicate checks of upload and rename compare the exact
    trimmed name.  Let an image of the caller in some folder carry a name
    that differs from [m] only in letter case, and let no image of the
    caller in that folder be named exactly [m]: then an upload of [m] into
    the folder is created (201) and a rename of an image of the folder to
    [m] goes through (200), neither meeting a Conflict. *)
Theorem case_variant_name_accepted env user b e m w :
  In e (images w) -> Image.owner e = user -> Image.folder e = b ->
  caseVariant (Image.name e) m -> m <> EmptyString ->
  (forall j, In j (images w) -> Image.owner j = user -> Image.folder j = b ->
             Image.name j <> m) ->
  (forall n f file r,
      JS.trim n = m -> b = Some f -> f <> EmptyString -> folderOwned w user f ->
      uploadToCloudinary env (buffer file) (placementFolder user) (placementId env f n)
      = inr r ->
      validate env (newImage env user n f file r) = [] ->
      (forall i, In i (images w) -> Image._id i <> new_ObjectId env) ->
      post_upload env user (Some n) (Some f) (Some file) w
      = (Return {| status := 201;
                   body := ImageJson (populate (folders w) (newImage env user n f file r)) |},
         set_images (images w ++ [newImage env user n f file r]) w))
  /\ (forall n i,
      JS.trim n = m -> In i (images w) -> Image.owner i = user -> Image.folder i = b ->
      uniqueIds (images w) -> populateFolder (folders w) i <> Null ->
      validate env (Image.set_name m i) = [] ->
      put_id env user (Image._id i) (Some n) w
      = (Return {| status := 200;
                   body := ImageJson {| doc := Image.set_name m i;
                                        folder := populateFolder (folders w) i |} |},
         set_images (Image.replaceById (Image.set_name m i) (images w)) w)).
Proof.
  intros He Hoe Hfe Hcase Hm Hfree. split.
  - intros n f file r Hn -> Hf Hown Hup Hv Hfresh.
    rewrite post_upload_checked; auto.
    + now apply uploadAndSave_created.
    + now rewrite Hn.
    + rewrite Hn. intros (j & Hj & Ho & Hfj & Hnm). now apply (Hfree j).
  - intros n i Hn Hi Ho Hfi Hids Hres Hv.
    rewrite (put_id_checked env user (Image._id i) n i w).
    + rewrite Hn, (find_other_none user m i w Hres), Hv; [reflexivity|].
      intros j Hj _ Hoj Hfj. apply Hfree; auto. congruence.
    + now rewrite Hn.
    + now apply find_own.
Qed.

Lemma case_variant_name_accepted_witness :
  fst (post_upload sample_env "u1" (Some "cat.png") (Some "f1") (Some sample_file)
         sample_world)
  = Return {| status := 201;
              body := ImageJson
                {| doc := Image.mk "i9" "cat.png"
                            "https://cdn.example/users/u1/images/f1_1700000000000_cat_png"
                            "users/u1/images/f1_1700000000000_cat_png"
                            (Some "f1") "u1" 4 "image/png";
                   folder := Expanded {| ref_id := "f1"; ref_name := "Pets";
                                         ref_path := "/Pets" |} |} |}
  /\ fst (put_id sample_env "u1" "i2" (Some "cat.png") sample_world)
     = Return {| status := 200;
                 body := ImageJson
                   {| doc := Image.mk "i2" "cat.png" "https://cdn.example/cat" "pid-cat"
                               (Some "f1") "u1" 20 "image/png";
                      folder := Expanded {| ref_id := "f1"; ref_name := "Pets";
                                            ref_path := "/Pets" |} |} |}.
Proof.
  destruct (case_variant_name_accepted sample_env "u1" (Some "f1")
              (Image.mk "i2" "Cat.png" "https://cdn.example/cat" "pid-cat" (Some "f1") "u1"
                 20 "image/png") "cat.png" sample_world) as [Hcreate Hrename].
  - simpl. auto.
  - reflexivity.
  - reflexivity.
  - split; [discriminate | reflexivity].
  - discriminate.
  - intros j Hj. simpl in Hj.
    repeat (destruct Hj as [Hj|Hj]; [subst j; cbv; intuition congruence|]).
    now elim Hj.
  - split.
    + etransitivity; [apply (f_equal fst)|].
      * apply (Hcreate "cat.png" "f1" sample_file
                 {| secure_url := "https://cdn.example/users/u1/images/f1_1700000000000_cat_png";
                    public_id := "users/u1/images/f1_1700000000000_cat_png" |});
          [ reflexivity | reflexivity | discriminate
          | exists (Folder.mk "f1" "u1" "Pets" "/Pets"); simpl; auto
          | reflexivity | reflexivity | ].
        intros i Hi. simpl in Hi.
        repeat (destruct Hi as [Hi|Hi]; [subst i; discriminate|]). now elim Hi.
      * reflexivity.
    + etransitivity; [apply (f_equal fst)|].
      * apply (Hrename "cat.png"
                 (Image.mk "i2" "Cat.png" "https://cdn.example/cat" "pid-cat" (Some "f1")
                    "u1" 20 "image/png"));
          [ reflexivity | simpl; auto | reflexivity | reflexivity | sample_nodup
          | vm_compute; discriminate | reflexivity ].
      * reflexivity.
Defined.

(** ** Sorting by name *)

Lemma insertByName_perm x l : Permutation (x :: l) (Image.insertByName x l).
Proof.
  induction l as [|y r IH]; simpl; [reflexivity|].
  destruct (String.leb (Image.name x) (Image.name y)); [reflexivity|].
  rewrite perm_swap. now constructor.
Qed.

Lemma sortByName_perm l : Permutation (Image.sortByName l) l.
Proof.
  induction l as [|x r IH]; simpl; [constructor|].
  rewrite <- insertByName_perm. now constructor.
Qed.

Lemma insertByName_hdrel a x l :
  nameLe a x -> HdRel nameLe a l -> HdRel nameLe a (Image.insertByName x l).
Proof.
  intros Hax Hl. destruct l as [|y r]; simpl; [now constructor|].
  destruct (String.leb (Image.name x) (Image.name y)); constructor; auto.
  now inversion Hl.
Qed.

Lemma insertByName_sorted x l :
  Sorted nameLe l -> Sorted nameLe (Image.insertByName x l).
Proof.
  induction 1 as [|y r Hr IH Hy]; simpl; [repeat constructor|].
  destruct (String.leb (Image.name x) (Image.name y)) eqn:E.
  - constructor; [now constructor | now constructor].
  - constructor; [exact IH|]. apply insertByName_hdrel; [|exact Hy].
    unfold nameLe. destruct (String.leb_total (Image.name x) (Image.name y)); congruence.
Qed.

Lemma sortByName_sorted l : Sorted nameLe (Image.sortByName l).
Proof.
  induction l as [|x r IH]; simpl; [constructor|]. now apply insertByName_sorted.
Qed.

Lemma string_leb_trans a : forall b c,
  String.leb a b = true -> String.leb b c = true -> String.leb a c = true.
Proof.
  unfold String.leb. induction a as [|x a IH]; intros [|y b] [|z c]; simpl; try easy.
  unfold Ascii.compare.
  destruct (N.compare_spec (N_of_ascii x) (N_of_ascii y));
    destruct (N.compare_spec (N_of_ascii y) (N_of_ascii z)); try easy;
    destruct (N.compare_spec (N_of_ascii x) (N_of_ascii z)); try easy; try lia.
  apply IH.
Qed.

Lemma nameLe_trans a b c : nameLe a b -> nameLe b c -> nameLe a c.
Proof. unfold nameLe. apply string_leb_trans. Qed.

Lemma sortByName_strongly_sorted l : StronglySorted nameLe (Image.sortByName l).
Proof.
  apply Sorted_StronglySorted; [|apply sortByName_sorted].
  intros a b c. apply nameLe_trans.
Qed.

Lemma sortByName_in l i : In i (Image.sortByName l) <-> In i l.
Proof.
  split; apply Permutation_in; [|symmetry]; apply sortByName_perm.
Qed.

(** ** List *)


Lemma inFolder_true user f i :
  inFolder user f i = true <-> Image.owner i = user /\ Image.folder i = Some f.
Proof.
  unfold inFolder. rewrite andb_true_iff, String.eqb_eq.
  destruct (Image.folder i) as [g|].
  - rewrite String.eqb_eq. intuition congruence.
  - intuition congruence.
Qed.

Lemma findById_owned w user f :
  folderOwned w user f ->
  exists d, Folder.findById f (folders w) = Some d /\ In d (folders w) /\ Folder._id d = f.
Proof.
  intros (d & Hin & Hid & _). unfold Folder.findById.
  destruct (find _ (folders w)) as [d'|] eqn:E.
  - exists d'. apply find_some in E. destruct E as [H1 H2].
    apply String.eqb_eq in H2. auto.
  - apply (find_none _ _ E) in Hin. rewrite Hid, String.eqb_refl in Hin. discriminate.
Qed.

Lemma get_images_root env user folder w :
  missing folder ->
  get_images env user folder w
  = (Return {| status := 200;
               body := ImagesJson
                 (map (populate (folders w))
                    (Image.sortByName (filter (inRoot user) (images w)))) |}, w).
Proof.
  intros Hm. unfold get_images, try_catch. rewrite (ifFalsy_missing _ _ _ Hm).
  unfold bind, Image_find, Image_populateAll, compileQuery. simpl.
  do 3 f_equal. do 3 f_equal. apply filter_ext. intros i.
  unfold inRoot, Image.matchId, Image.matchFolder.
  destruct (Image.folder i); now rewrite ?andb_true_r, ?andb_false_r.
Qed.

Lemma get_images_fault env user f w e :
  f <> EmptyString -> folderIdCast env w f = Some e ->
  get_images env user (Some f) w
  = (Return (message 500 "Server error while fetching images"),
     logged "Get images error:" e w).
Proof.
  intros Hf Hc. unfold get_images, try_catch. rewrite (ifFalsy_given _ _ _ Hf).
  unfold bind at 1. now rewrite (Folder_findOne_fault _ _ _ _ _ Hc).
Qed.

Lemma get_images_foreign env user f w :
  f <> EmptyString -> folderIdCast env w f = None -> ~ folderOwned w user f ->
  get_images env user (Some f) w = (Return (message 404 "Folder not found"), w).
Proof.
  intros Hf Hc Hno. unfold get_images, try_catch. rewrite (ifFalsy_given _ _ _ Hf).
  unfold bind. rewrite (Folder_findOne_cast _ _ _ _ Hc).
  now rewrite (Folder_findOne_none _ _ _ Hno).
Qed.

Lemma get_images_in_folder env user f w :
  f <> EmptyString -> folderOwned w user f ->
  get_images env user (Some f) w
  = (Return {| status := 200;
               body := ImagesJson
                 (map (populate (folders w))
                    (Image.sortByName (filter (inFolder user f) (images w)))) |}, w).
Proof.
  intros Hf Hown. unfold get_images, try_catch. rewrite (ifFalsy_given _ _ _ Hf).
  pose proof (folderOwned_cast env _ _ _ Hown) as Hc.
  unfold bind at 1. rewrite (Folder_findOne_cast _ _ _ _ Hc).
  destruct (Folder_findOne_some _ _ _ Hown) as [d ->].
  unfold folderIdCast in Hc.
  unfold bind, Image_find, Image_populateAll, compileQuery. simpl. rewrite Hc. simpl.
  do 3 f_equal. do 3 f_equal. apply filter_ext. intros i.
  unfold inFolder, Image.matchId, Image.matchFolder.
  destruct (Image.folder i); now rewrite ?andb_true_r, ?andb_false_r.
Qed.





Example get_images_empty_parameter :
  get_images sample_env "u1" (Some EmptyString) sample_world
  = get_images sample_env "u1" None sample_world.
Proof. reflexivity. Qed.

Example get_images_ex :
  fst (get_images sample_env "u1" (Some "f1") sample_world)
  = Return {| status := 200;
              body := ImagesJson
                [ {| doc := Image.mk "i2" "Cat.png" "https://cdn.example/cat" "pid-cat"
                              (Some "f1") "u1" 20 "image/png";
                     folder := Expanded {| ref_id := "f1"; ref_name := "Pets";
                                           ref_path := "/Pets" |} |};
                  {| doc := Image.mk "i1" "dog.png" "https://cdn.example/dog" "pid-dog"
                              (Some "f1") "u1" 10 "image/png";
                     folder := Expanded {| ref_id := "f1"; ref_name := "Pets";
                                           ref_path := "/Pets" |} |} ] |}.
Proof. reflexivity. Qed.

(** ** Search *)

Lemma get_search_blank env user q w :
  blank q ->
  get_search env user q w = (Return {| status := 200; body := ImagesJson [] |}, w).
Proof.
  intros H. unfold get_search, try_catch. now rewrite (ifBlank_blank _ _ _ H).
Qed.

Lemma get_search_compiled env user q w test :
  JS.trim q <> EmptyString -> regex env (JS.trim q) "i" = Some test ->
  get_search env user (Some q) w
  = (Return {| status := 200;
               body := ImagesJson
                 (map (populate (folders w))
                    (Image.limit 50
                       (Image.sortByName (filter (searchTest user test) (images w))))) |},
     w).
Proof.
  intros Hq Hr. unfold get_search, try_catch. rewrite (ifBlank_given _ _ _ Hq).
  unfold bind, Image_find, compileQuery. simpl. now rewrite Hr.
Qed.

Lemma get_search_rejected env user q w :
  JS.trim q <> EmptyString -> regex env (JS.trim q) "i" = None ->
  get_search env user (Some q) w
  = (Return (message 500 "Server error while searching images"),
     logged "Search images error:" (Error "Regular expression is invalid") w).
Proof.
  intros Hq Hr. unfold get_search, try_catch. rewrite (ifBlank_given _ _ _ Hq).
  unfold bind, Image_find, compileQuery. simpl. now rewrite Hr.
Qed.

Lemma map_doc_populate fs l : map doc (map (populate fs) l) = l.
Proof. induction l as [|x r IH]; simpl; [reflexivity|]. now rewrite IH. Qed.

Lemma Forall_firstn {A} (P : A -> Prop) (l : list A) :
  Forall P l -> forall k, Forall P (firstn k l).
Proof. induction 1; intros [|k]; simpl; constructor; auto. Qed.

Lemma firstn_strongly_sorted (l : list Image.t) :
  StronglySorted nameLe l -> forall k, StronglySorted nameLe (firstn k l).
Proof.
  induction 1 as [|x s Hs IH Hx]; intros [|k]; simpl; try constructor.
  - apply IH.
  - now apply Forall_firstn.
Qed.

(** X10. Whatever the query and whatever the database's pattern engine, a
    search never rejects, and when it answers with a list the list has at
    most 50 images and is sorted by name. *)
Lemma get_search_bounds env user q w :
  match fst (get_search env user q w) with
  | Return r =>
      match body r with
      | ImagesJson l => (List.length l <= 50)%nat /\ StronglySorted nameLe (map doc l)
      | _ => True
      end
  | Throw _ => False
  end.
Proof.
  destruct q as [q|]; [destruct (string_dec (JS.trim q) EmptyString) as [E|E]|].
  - rewrite get_search_blank by exact E. cbn [fst body map List.length].
    split; [apply Nat.le_0_l | constructor].
  - destruct (regex env (JS.trim q) "i") as [test|] eqn:Hr.
    + rewrite (get_search_compiled _ _ _ _ _ E Hr). cbn [fst body].
      rewrite length_map, map_doc_populate. unfold Image.limit. split.
      * apply firstn_le_length.
      * apply firstn_strongly_sorted, sortByName_strongly_sorted.
    + rewrite (get_search_rejected _ _ _ _ E Hr). exact I.
  - rewrite get_search_blank by exact I. cbn [fst body map List.length].
    split; [apply Nat.le_0_l | constructor].
Qed.

(** On a pattern without special characters the sample engine tests for a
    substring, letter case ignored. *)
Lemma isMeta_dot c : RegexFragment.isMeta c = false -> Ascii.eqb c "."%char = false.
Proof.
  unfold RegexFragment.isMeta. simpl. intros H.
  repeat (apply orb_false_elim in H; destruct H as [? H]). assumption.
Qed.

Lemma parse_literal p :
  RegexFragment.isLiteral p = true ->
  RegexFragment.parse p = Some (map RegexFragment.Lit (list_ascii_of_string p)).
Proof.
  induction p as [|c r IH]; simpl; [reflexivity|].
  intros H. apply andb_true_iff in H. destruct H as [Hc Hr].
  apply negb_true_iff in Hc. rewrite (isMeta_dot _ Hc), Hc, (IH Hr). reflexivity.
Qed.

Lemma matchHere_literal p : forall s,
  RegexFragment.matchHere true (map RegexFragment.Lit (list_ascii_of_string p)) s
  = String.prefix (foldCase p) (foldCase s).
Proof.
  induction p as [|c r IH]; intros [|d s]; simpl; try reflexivity.
  rewrite IH.
  destruct (ascii_dec (RegexFragment.lower c) (RegexFragment.lower d)) as [E|E].
  - now rewrite E, Ascii.eqb_refl.
  - apply Ascii.eqb_neq in E. now rewrite E.
Qed.

Lemma search_literal p s :
  RegexFragment.search true (map RegexFragment.Lit (list_ascii_of_string p)) s
  = containsIgnoringCase p s.
Proof.
  unfold containsIgnoringCase.
  induction s as [|d s IH]; simpl; rewrite matchHere_literal; simpl; [reflexivity|].
  now rewrite IH.
Qed.

Lemma get_search_literal env user q w :
  regex env = RegexFragment.compile ->
  JS.trim q <> EmptyString -> RegexFragment.isLiteral (JS.trim q) = true ->
  get_search env user (Some q) w
  = (Return {| status := 200;
               body := ImagesJson (map (populate (folders w))
                                     (searchBySubstring user q (images w))) |}, w).
Proof.
  intros Henv Hq Hlit.
  rewrite (get_search_compiled env user q w
             (RegexFragment.search true
                (map RegexFragment.Lit (list_ascii_of_string (JS.trim q)))) Hq).
  - unfold searchBySubstring, Image.limit. do 7 f_equal.
    apply filter_ext. intros i. unfold searchTest, Image.matchId, Image.matchFolder.
    now rewrite search_literal, andb_true_r.
  - rewrite Henv. unfold RegexFragment.compile. now rewrite (parse_literal _ Hlit).
Qed.

(** C4. The trimmed query is handed to the database as a regular
    expression, not as a literal substring.  On a collection whose names
    are "dog" and "cat" the query "." returns both images although neither
    name contains a dot, where a substring search returns none; and the
    query "(" is answered 500 "Server error while searching images". *)
Theorem get_search_pattern_not_substring :
  fst (get_search sample_env "u1" (Some ".") plain_world)
  = Return {| status := 200;
              body := ImagesJson
                [ {| doc := Image.mk "p2" "cat" "https://cdn.example/p2" "pid-p2"
                              (Some "f1") "u1" 20 "image/png";
                     folder := Expanded {| ref_id := "f1"; ref_name := "Pets";
                                           ref_path := "/Pets" |} |};
                  {| doc := Image.mk "p1" "dog" "https://cdn.example/p1" "pid-p1"
                              (Some "f1") "u1" 10 "image/png";
                     folder := Expanded {| ref_id := "f1"; ref_name := "Pets";
                                           ref_path := "/Pets" |} |} ] |}
  /\ searchBySubstring "u1" "." (images plain_world) = []
  /\ fst (get_search sample_env "u1" (Some "(") plain_world)
     = Return (message 500 "Server error while searching images").
Proof. repeat split; reflexivity. Qed.

(** ** Intake and the error middleware *)

Lemma post_upload_route_type_rejected env penv user req w p :
  part_image req = Some p ->
  existsb (String.eqb (part_mimetype p)) (allowedTypes penv) = false ->
  post_upload_route env penv user req w
  = (Next (Error "Invalid file type. Only JPEG, PNG and GIF images are allowed."), w).
Proof.
  intros Hp Ht. unfold post_upload_route, upload_single, fileFilter.
  now rewrite Hp, Ht.
Qed.

(** C6. A file whose content type is not allow-listed is stopped by the
    filter before the handler runs, but no 400 comes out of the router: the
    error is not a MulterError, so the error middleware hands it on with
    [next], and the branch of the handler's [catch] that would answer 400
    with the message is never entered.  Here a BMP upload under the default
    settings; the collections and the console are untouched. *)
Theorem post_upload_route_bmp_passed_on :
  post_upload_route sample_env default_penv "u1" bmp_request sample_world
  = (Next (Error "Invalid file type. Only JPEG, PNG and GIF images are allowed."),
     sample_world).
Proof. reflexivity. Qed.

(** C9. An upload refused for its size is answered 400 with the fixed
    message "File size too large. Maximum size is 5MB.", whatever limit is
    configured; nothing else happens. *)
Theorem post_upload_route_too_large env penv user req w p :
  part_image req = Some p ->
  existsb (String.eqb (part_mimetype p)) (allowedTypes penv) = true ->
  (fileSize penv < Z.of_nat (List.length (part_data p)))%Z ->
  post_upload_route env penv user req w
  = (Responded (message 400 "File size too large. Maximum size is 5MB."), w).
Proof.
  intros Hp Ht Hsz. unfold post_upload_route, upload_single, fileFilter.
  rewrite Hp, Ht, nat_N_Z.
  apply Z.lt_le_incl, Z.leb_le in Hsz. now rewrite Hsz.
Qed.

Lemma post_upload_route_too_large_witness :
  fileSize small_limit_penv = 3%Z
  /\ post_upload_route sample_env small_limit_penv "u1" png_request sample_world
     = (Responded (message 400 "File size too large. Maximum size is 5MB."), sample_world).
Proof.
  split; [reflexivity|].
  apply (post_upload_route_too_large sample_env small_limit_penv "u1" png_request
           sample_world
           {| part_mimetype := "image/png";
              part_data := [Byte.x89; Byte.x50; Byte.x4e; Byte.x47] |}).
  - reflexivity.
  - reflexivity.
  - vm_compute. reflexivity.
Defined.

(** ** Validation errors of the persistence layer *)

(** C7. A validation error thrown by [save] is caught by the inner
    [catch] of the upload handler, the one meant for storage failures: the
    response is 500 "Failed to upload image to cloud storage", not a 400
    with the joined validation messages, whose branch in the outer [catch]
    is out of reach.  Here a schema that bounds names to 8 characters and
    an upload named "holiday-2024.png". *)
Theorem post_upload_validation_error_is_500 :
  validate strict_schema_env
    (newImage strict_schema_env "u1" "holiday-2024.png" "f1" sample_file
       {| secure_url := "https://cdn.example/users/u1/images/f1_1700000000000_holiday_2024_png";
          public_id := "users/u1/images/f1_1700000000000_holiday_2024_png" |})
  = ["Image name cannot exceed 8 characters"]
  /\ post_upload_route strict_schema_env default_penv "u1" long_name_request sample_world
     = (Responded (message 500 "Failed to upload image to cloud storage"),
        logged "Cloudinary upload error:"
          (ValidationError ["Image name cannot exceed 8 characters"]) sample_world).
Proof. split; reflexivity. Qed.

(** ** The invariant of the collections

    The uniqueness of (owner, folder, name) is not a constraint of the
    database; it holds because every handler keeps it, one request at a
    time. *)

Lemma consistent_same env w w' :
  folders w' = folders w -> images w' = images w -> consistent env w -> consistent env w'.
Proof.
  intros Hf Hi [H1 H2 H3 H4 H5]. constructor; rewrite ?Hf, ?Hi; auto.
Qed.

Lemma folderOwned_dec w user f : {folderOwned w user f} + {~ folderOwned w user f}.
Proof.
  destruct (Folder.findOne f user (folders w)) as [d|] eqn:E.
  - left. apply find_some in E. destruct E as [Hin Hd].
    apply andb_true_iff in Hd. destruct Hd as [H1 H2].
    apply String.eqb_eq in H1, H2. now exists d.
  - right. intros H. destruct (Folder_findOne_some _ _ _ H) as [d Hd]. congruence.
Qed.

Lemma nameTaken_dec w user f n : {nameTaken w user f n} + {~ nameTaken w user f n}.
Proof.
  destruct (find (siblingTest user f n) (images w)) as [i|] eqn:E.
  - left. apply find_some in E. destruct E as [Hin Hi].
    apply siblingTest_true in Hi. now exists i.
  - right. intros H. destruct (find_sibling_some _ _ _ _ H) as [i Hi]. congruence.
Qed.

(** What an upload does to the collections: nothing, or one insertion after
    all the checks and a successful storage upload. *)
Lemma post_upload_world env user name folderId file w :
  folders (snd (post_upload env user name folderId file w)) = folders w
  /\ (images (snd (post_upload env user name folderId file w)) = images w
      \/ exists n f fl r,
           JS.trim n <> EmptyString /\ folderOwned w user f
           /\ ~ nameTaken w user f (JS.trim n)
           /\ validate env (newImage env user n f fl r) = []
           /\ (forall i, In i (images w) -> Image._id i <> new_ObjectId env)
           /\ images (snd (post_upload env user name folderId file w))
              = images w ++ [newImage env user n f fl r]).
Proof.
  destruct name as [n|];
    [destruct (string_dec (JS.trim n) EmptyString) as [Hn|Hn]|].
  - rewrite post_upload_blank_name by exact Hn. simpl. auto.
  - destruct folderId as [f|]; [destruct (string_dec f EmptyString) as [Hf|Hf]|].
    + rewrite post_upload_missing_folderId by assumption. simpl. auto.
    + destruct file as [fl|].
      * destruct (folderOwned_dec w user f) as [Hown|Hown].
        -- destruct (nameTaken_dec w user f (JS.trim n)) as [Ht|Ht].
           ++ rewrite post_upload_name_taken by assumption. simpl. auto.
           ++ rewrite post_upload_checked by assumption.
              unfold uploadAndSave, try_catch, bind, await_upload, Image_save.
              destruct (uploadToCloudinary env _ _ _) as [e|r]; [simpl; auto|].
              destruct (validate env _) as [|m ms] eqn:Hv; [|simpl; auto].
              destruct (existsb _ (images w)) eqn:Hex; [simpl; auto|].
              simpl. split; [reflexivity|]. right. exists n, f, fl, r.
              repeat split; auto.
              intros i Hi Hid.
              assert (existsb (fun d => String.eqb (Image._id d)
                                          (Image._id (newImage env user n f fl r)))
                        (images w) = true); [|congruence].
              apply existsb_exists. exists i. split; [exact Hi|].
              now apply String.eqb_eq.
        -- destruct (folderIdCast env w f) as [e|] eqn:Hc.
           ++ rewrite (post_upload_folder_fault env user n f fl w e Hn Hf Hc). simpl. auto.
           ++ rewrite post_upload_foreign_folder by assumption. simpl. auto.
      * rewrite post_upload_missing_file by assumption. simpl. auto.
    + rewrite post_upload_missing_folderId by (exact Hn || exact I). simpl. auto.
  - rewrite post_upload_blank_name by exact I. simpl. auto.
Qed.

Lemma NoDup_snoc {A} (l : list A) (x : A) : NoDup l -> ~ In x l -> NoDup (l ++ [x]).
Proof.
  intros Hl Hx. apply (Permutation_NoDup (l := x :: l)).
  - apply Permutation_cons_append.
  - now constructor.
Qed.

(** X6. An upload keeps the collections consistent: if before the request
    ids are unique, no two images share owner, folder and name, names are
    non-empty, folder references resolve and documents are valid, then the
    same holds after it, whatever the request and its outcome. *)
Theorem post_upload_consistent env user name folderId file w :
  consistent env w -> consistent env (snd (post_upload env user name folderId file w)).
Proof.
  intros Hc.
  destruct (post_upload_world env user name folderId file w) as [Hf [Hi|Hnew]].
  - now apply (consistent_same env w).
  - destruct Hnew as (n & f & fl & r & Hn & Hown & Hfree & Hv & Hfresh & Hi).
    destruct Hc as [H1 H2 H3 H4 H5].
    constructor; rewrite ?Hf, Hi.
    + unfold uniqueIds. rewrite map_app. apply NoDup_snoc; [exact H1|].
      simpl. intros Hin. apply in_map_iff in Hin. destruct Hin as (i & Hid & Hin).
      now apply (Hfresh i).
    + intros a b Ha Hb. apply in_app_iff in Ha, Hb. simpl in Ha, Hb.
      destruct Ha as [Ha|[<-|[]]], Hb as [Hb|[<-|[]]]; simpl; auto.
      * intros Ho Hfo Hnm. elim Hfree. exists a. auto.
      * intros Ho Hfo Hnm. elim Hfree. exists b. auto.
    + intros i Hin. apply in_app_iff in Hin. destruct Hin as [Hin|[<-|[]]]; auto.
    + intros i Hin. apply in_app_iff in Hin. destruct Hin as [Hin|[<-|[]]]; auto.
      unfold populateFolder. simpl.
      destruct (findById_owned _ _ _ Hown) as (d & -> & _). discriminate.
    + intros i Hin. apply in_app_iff in Hin. destruct Hin as [Hin|[<-|[]]]; auto.
Qed.

Lemma put_id_blank_name env user id name w :
  blank name ->
  put_id env user id name w = (Return (message 400 "Image name is required"), w).
Proof.
  intros Hb. unfold put_id, try_catch. now rewrite (ifBlank_blank _ _ _ Hb).
Qed.

Lemma put_id_absent env user id n w :
  JS.trim n <> EmptyString -> imageIdCast env w id = None ->
  find (ownTest user id) (images w) = None ->
  put_id env user id (Some n) w = (Return (message 404 "Image not found"), w).
Proof.
  intros Hn Hc E. unfold put_id, try_catch. rewrite (ifBlank_given _ _ _ Hn).
  fold (ownQuery user id). unfold bind.
  now rewrite (Image_findOne_own _ _ _ _ Hc), E.
Qed.

Lemma put_id_fault env user id n w e :
  JS.trim n <> EmptyString -> imageIdCast env w id = Some e ->
  put_id env user id (Some n) w
  = (Return (message 500 "Server error while updating image"),
     logged "Update image error:" e w).
Proof.
  intros Hn Hc. unfold put_id, try_catch. rewrite (ifBlank_given _ _ _ Hn).
  fold (ownQuery user id). unfold bind at 1.
  now rewrite (Image_findOne_own_fault _ _ _ _ _ Hc).
Qed.

Lemma find_own_inv user id i l :
  find (ownTest user id) l = Some i ->
  In i l /\ Image._id i = id /\ Image.owner i = user.
Proof.
  intros E. apply find_some in E. destruct E as [Hin Hi].
  unfold ownTest, Image.matchId, Image.matchFolder in Hi.
  rewrite !andb_true_r in Hi. apply andb_true_iff in Hi. destruct Hi as [H1 H2].
  apply String.eqb_eq in H1, H2. auto.
Qed.

(** What a rename does to the collections: nothing, or the new name on the
    one document, after the duplicate check found no other image. *)
Lemma put_id_world env user id name w :
  folders (snd (put_id env user id name w)) = folders w
  /\ (images (snd (put_id env user id name w)) = images w
      \/ exists n i,
           JS.trim n <> EmptyString
           /\ find (ownTest user id) (images w) = Some i
           /\ find (otherTest user (Image._id i)
                      (folderCondOf (populateFolder (folders w) i)) (JS.trim n))
                (images w) = None
           /\ validate env (Image.set_name (JS.trim n) i) = []
           /\ images (snd (put_id env user id name w))
              = Image.replaceById (Image.set_name (JS.trim n) i) (images w)).
Proof.
  destruct name as [n|];
    [destruct (string_dec (JS.trim n) EmptyString) as [Hn|Hn]|].
  - rewrite put_id_blank_name by exact Hn. simpl. auto.
  - destruct (find (ownTest user id) (images w)) as [i|] eqn:Ei.
    + rewrite (put_id_checked env user id n i w Hn Ei).
      destruct (find (otherTest _ _ _ _) (images w)) eqn:Eo; [simpl; auto|].
      destruct (validate env _) as [|m ms] eqn:Hv; [|simpl; auto].
      simpl. split; [reflexivity|]. right. exists n, i. auto.
    + destruct (imageIdCast env w id) as [e|] eqn:Hc.
      * rewrite (put_id_fault env user id n w e Hn Hc). simpl. auto.
      * rewrite put_id_absent by assumption. simpl. auto.
  - rewrite put_id_blank_name by exact I. simpl. auto.
Qed.

Lemma replaceById_ids d l : map Image._id (Image.replaceById d l) = map Image._id l.
Proof.
  unfold Image.replaceById. rewrite map_map. apply map_ext_in. intros y _.
  destruct (String.eqb (Image._id y) (Image._id d)) eqn:E; [|reflexivity].
  apply String.eqb_eq in E. congruence.
Qed.

Lemma replaceById_in d l x :
  In x (Image.replaceById d l) ->
  (In x l /\ Image._id x <> Image._id d) \/ (x = d /\ In (Image._id d) (map Image._id l)).
Proof.
  unfold Image.replaceById. intros H. apply in_map_iff in H.
  destruct H as (y & Hy & Hin).
  destruct (String.eqb (Image._id y) (Image._id d)) eqn:E.
  - right. apply String.eqb_eq in E. split; [congruence|].
    rewrite <- E. now apply in_map.
  - left. apply String.eqb_neq in E. subst x. auto.
Qed.

Lemma otherTest_true user id c n j :
  Image._id j <> id -> Image.owner j = user ->
  Image.matchFolder (Some c) j = true -> Image.name j = n ->
  otherTest user id c n j = true.
Proof.
  intros H1 H2 H3 H4. unfold otherTest, Image.matchId.
  apply String.eqb_neq in H1. apply String.eqb_eq in H2, H4.
  now rewrite H1, H2, H3, H4.
Qed.

(** X7. A rename keeps the collections consistent; in particular it never
    produces two images with the same owner, folder and name. *)
Theorem put_id_consistent env user id name w :
  consistent env w -> consistent env (snd (put_id env user id name w)).
Proof.
  intros Hc.
  destruct (put_id_world env user id name w) as [Hf [Hi|Hnew]].
  - now apply (consistent_same env w).
  - destruct Hnew as (n & i & Hn & Hown & Hother & Hv & Hi).
    destruct Hc as [H1 H2 H3 H4 H5].
    apply find_own_inv in Hown. destruct Hown as (Hin & _ & Ho).
    assert (Hclash : forall j, In j (images w) -> Image._id j <> Image._id i ->
                               Image.owner j = Image.owner i ->
                               Image.folder j = Image.folder i ->
                               Image.name j = JS.trim n -> False).
    { intros j Hj Hid Hoj Hfj Hnj.
      pose proof (find_none _ _ Hother j Hj) as E.
      rewrite otherTest_true in E; [discriminate| | | |]; auto; [congruence|].
      now apply matchFolder_resolved; [apply H4|]. }
    constructor; rewrite ?Hf, Hi.
    + unfold uniqueIds. now rewrite replaceById_ids.
    + intros a b Ha Hb.
      apply replaceById_in in Ha, Hb. simpl in Ha, Hb.
      destruct Ha as [[Ha Hia]|[-> _]], Hb as [[Hb Hib]|[-> _]]; simpl; auto.
      * intros Hoa Hfa Hna. exfalso. now apply (Hclash a).
      * intros Hob Hfb Hnb. exfalso. apply (Hclash b); auto.
    + intros x Hx. apply replaceById_in in Hx.
      destruct Hx as [[Hx _]|[-> _]]; auto.
    + intros x Hx. apply replaceById_in in Hx.
      destruct Hx as [[Hx _]|[-> _]]; auto. now apply (H4 i).
    + intros x Hx. apply replaceById_in in Hx.
      destruct Hx as [[Hx _]|[-> _]]; auto.
Qed.

Lemma removeById_in id l x : In x (Image.removeById id l) -> In x l.
Proof.
  induction l as [|y r IH]; simpl; [easy|].
  destruct (String.eqb (Image._id y) id); simpl; intuition.
Qed.

Lemma removeById_unique id l : uniqueIds l -> uniqueIds (Image.removeById id l).
Proof.
  unfold uniqueIds. induction l as [|y r IH]; simpl; [easy|].
  intros H. inversion H as [|? ? Hy Hr]; subst.
  destruct (String.eqb (Image._id y) id); [exact Hr|].
  simpl. constructor; [|now apply IH].
  intros Hin. apply Hy. apply in_map_iff in Hin. destruct Hin as (x & Hx & Hin).
  apply in_map_iff. exists x. split; [exact Hx|]. now apply removeById_in in Hin.
Qed.

Lemma delete_id_world env user id w :
  folders (snd (delete_id env user id w)) = folders w
  /\ (images (snd (delete_id env user id w)) = images w
      \/ exists i, images (snd (delete_id env user id w))
                   = Image.removeById (Image._id i) (images w)).
Proof.
  destruct (find (ownTest user id) (images w)) as [i|] eqn:Ei.
  - rewrite (delete_id_found env user id i w Ei).
    destruct (deleteFromCloudinary env _); simpl; split; eauto.
  - destruct (imageIdCast env w id) as [e|] eqn:Hc.
    + rewrite (delete_id_fault env user id w e Hc). simpl. auto.
    + rewrite delete_id_absent by assumption. simpl. auto.
Qed.

(** X8. A delete keeps the collections consistent. *)
Theorem delete_id_consistent env user id w :
  consistent env w -> consistent env (snd (delete_id env user id w)).
Proof.
  intros Hc.
  destruct (delete_id_world env user id w) as [Hf [Hi|[i Hi]]].
  - now apply (consistent_same env w).
  - destruct Hc as [H1 H2 H3 H4 H5].
    constructor; rewrite ?Hf, Hi.
    + now apply removeById_unique.
    + intros a b Ha Hb. apply removeById_in in Ha, Hb. now apply H2.
    + intros x Hx. apply removeById_in in Hx. auto.
    + intros x Hx. apply removeById_in in Hx. auto.
    + intros x Hx. apply removeById_in in Hx. auto.
Qed.

(** The two read-only handlers leave both collections as they are. *)
Lemma get_images_world env user folder w :
  folders (snd (get_images env user folder w)) = folders w
  /\ images (snd (get_images env user folder w)) = images w.
Proof.
  destruct folder as [f|]; [destruct (string_dec f EmptyString) as [Hf|Hf]|].
  - rewrite get_images_root by exact Hf. auto.
  - destruct (folderIdCast env w f) as [e|] eqn:Hc.
    + rewrite (get_images_fault env user f w e Hf Hc). auto.
    + destruct (folderOwned_dec w user f) as [Hown|Hown].
      * rewrite get_images_in_folder by assumption. auto.
      * rewrite get_images_foreign by assumption. auto.
  - rewrite get_images_root by exact I. auto.
Qed.

Lemma get_search_world env user q w :
  folders (snd (get_search env user q w)) = folders w
  /\ images (snd (get_search env user q w)) = images w.
Proof.
  destruct q as [q|]; [destruct (string_dec (JS.trim q) EmptyString) as [E|E]|].
  - rewrite get_search_blank by exact E. auto.
  - destruct (regex env (JS.trim q) "i") as [test|] eqn:Hr.
    + rewrite (get_search_compiled _ _ _ _ _ E Hr). auto.
    + rewrite (get_search_rejected _ _ _ _ E Hr). auto.
  - rewrite get_search_blank by exact I. auto.
Qed.

(** The sample collections are consistent. *)
Example sample_world_consistent : consistent sample_env sample_world.
Proof.
  constructor.
  - sample_nodup.
  - sample_unique_names.
  - intros i Hi. simpl in Hi.
    repeat (destruct Hi as [Hi|Hi]; [subst i; discriminate|]). now elim Hi.
  - intros i Hi. simpl in Hi.
    repeat (destruct Hi as [Hi|Hi]; [subst i; vm_compute; discriminate|]). now elim Hi.
  - intros i Hi. reflexivity.
Qed.

(** ** Every request is answered

    Each handler is one [try] with a [catch] that answers 500, so no handler
    promise rejects and the router never sees an error from a handler. *)

Lemma try_catch_returns {A} (m : M A) (h : JsError -> M A) w :
  (forall e w1, exists a w2, h e w1 = (Return a, w2)) ->
  exists a w', try_catch m h w = (Return a, w').
Proof.
  intros Hh. unfold try_catch. destruct (m w) as [[a|e] w1]; eauto.
Qed.

Lemma get_images_responds env user folder w :
  exists r w', get_images env user folder w = (Return r, w').
Proof. apply try_catch_returns. intros e w1. eexists _, _. reflexivity. Qed.

Lemma get_search_responds env user q w :
  exists r w', get_search env user q w = (Return r, w').
Proof. apply try_catch_returns. intros e w1. eexists _, _. reflexivity. Qed.

Lemma post_upload_responds env user name folderId file w :
  exists r w', post_upload env user name folderId file w = (Return r, w').
Proof.
  apply try_catch_returns. intros e w1. unfold bind, console_error.
  destruct (String.eqb (error_name e) "ValidationError");
    [|destruct (JS.includes (error_message e) "Invalid file type")];
    eexists _, _; reflexivity.
Qed.

Lemma put_id_responds env user id name w :
  exists r w', put_id env user id name w = (Return r, w').
Proof. apply try_catch_returns. intros e w1. eexists _, _. reflexivity. Qed.

Lemma delete_id_responds env user id w :
  exists r w', delete_id env user id w = (Return r, w').
Proof. apply try_catch_returns. intros e w1. eexists _, _. reflexivity. Qed.

(** The upload route ends in a response or in an error handed on from the
    intake stage, never in a rejected handler. *)
Lemma post_upload_route_not_rejected env penv user req w e w' :
  post_upload_route env penv user req w <> (Rejected e, w').
Proof.
  unfold post_upload_route.
  destruct (upload_single penv req) as [err|file].
  - unfold multer_error_handler.
    destruct err as [m|errs|code m|m]; try discriminate.
    destruct (String.eqb code "LIMIT_FILE_SIZE"); discriminate.
  - unfold run_handler.
    destruct (post_upload_responds env user (field_name req) (field_folderId req) file w)
      as (r & w1 & ->).
    discriminate.
Qed.

(** ** A session

    Upload "cat.png" into folder f1, rename it to "dog.png", delete it, and
    list the folder. *)

Example session :
  let w1 := snd (post_upload sample_env "u1" (Some "cat.png") (Some "f1")
                   (Some sample_file) empty_world) in
  let w2 := snd (put_id sample_env "u1" "i9" (Some "dog.png") w1) in
  let w3 := snd (delete_id sample_env "u1" "i9" w2) in
  let expanded := Expanded {| ref_id := "f1"; ref_name := "Pets"; ref_path := "/Pets" |} in
  let stored n :=
    Image.mk "i9" n "https://cdn.example/users/u1/images/f1_1700000000000_cat_png"
      "users/u1/images/f1_1700000000000_cat_png" (Some "f1") "u1" 4 "image/png" in
  fst (post_upload sample_env "u1" (Some "cat.png") (Some "f1") (Some sample_file)
         empty_world)
  = Return {| status := 201;
              body := ImageJson {| doc := stored "cat.png"; folder := expanded |} |}
  /\ fst (put_id sample_env "u1" "i9" (Some "dog.png") w1)
     = Return {| status := 200;
                 body := ImageJson {| doc := stored "dog.png"; folder := expanded |} |}
  /\ fst (delete_id sample_env "u1" "i9" w2)
     = Return (message 200 "Image deleted successfully")
  /\ fst (get_images sample_env "u1" (Some "f1") w3)
     = Return {| status := 200; body := ImagesJson [] |}
  /\ w3 = empty_world.
Proof. repeat split; reflexivity. Qed.

(** * Further properties of the routes *)

(** ** Upload: outcomes *)

(** Every upload ends in one of two ways: an answer other than 201 with
    both collections as they were, or 201 after all checks with exactly one
    document appended. *)
Lemma post_upload_cases env user name folderId file w :
  exists r w',
    post_upload env user name folderId file w = (Return r, w')
    /\ folders w' = folders w
    /\ ((status r <> 201 /\ images w' = images w)
        \/ exists n f fl res,
             name = Some n /\ folderId = Some f /\ file = Some fl
             /\ JS.trim n <> EmptyString /\ f <> EmptyString
             /\ folderOwned w user f /\ ~ nameTaken w user f (JS.trim n)
             /\ uploadToCloudinary env (buffer fl) (placementFolder user)
                  (placementId env f n) = inr res
             /\ validate env (newImage env user n f fl res) = []
             /\ (forall i, In i (images w) -> Image._id i <> new_ObjectId env)
             /\ created r (newImage env user n f fl res) (folders w)
             /\ w' = set_images (images w ++ [newImage env user n f fl res]) w).
Proof.
  assert (Hmsg : forall s m, s <> 201 ->
            exists r w',
              (Return (message s m), w) = (Return r, w')
              /\ folders w' = folders w
              /\ ((status r <> 201 /\ images w' = images w)
                  \/ exists n f fl res,
                       name = Some n /\ folderId = Some f /\ file = Some fl
                       /\ JS.trim n <> EmptyString /\ f <> EmptyString
                       /\ folderOwned w user f /\ ~ nameTaken w user f (JS.trim n)
                       /\ uploadToCloudinary env (buffer fl) (placementFolder user)
                            (placementId env f n) = inr res
                       /\ validate env (newImage env user n f fl res) = []
                       /\ (forall i, In i (images w) -> Image._id i <> new_ObjectId env)
                       /\ created r (newImage env user n f fl res) (folders w)
                       /\ w' = set_images (images w ++ [newImage env user n f fl res]) w)).
  { intros s m Hs. exists (message s m), w. auto. }
  destruct name as [n|];
    [destruct (string_dec (JS.trim n) EmptyString) as [Hn|Hn]|].
  - rewrite post_upload_blank_name by exact Hn. apply Hmsg. discriminate.
  - destruct folderId as [f|]; [destruct (string_dec f EmptyString) as [Hf|Hf]|].
    + rewrite post_upload_missing_folderId by assumption. apply Hmsg. discriminate.
    + destruct file as [fl|].
      * destruct (folderOwned_dec w user f) as [Hown|Hown].
        -- destruct (nameTaken_dec w user f (JS.trim n)) as [Ht|Ht].
           ++ rewrite post_upload_name_taken by assumption. apply Hmsg. discriminate.
           ++ rewrite post_upload_checked by assumption. clear Hmsg.
              unfold uploadAndSave, try_catch, bind, await_upload, Image_save.
              destruct (uploadToCloudinary env _ _ _) as [e|res] eqn:Hup.
              { eexists _, _. split; [reflexivity|]. simpl.
                split; [reflexivity|]. left. split; [discriminate|reflexivity]. }
              destruct (validate env _) as [|m ms] eqn:Hv.
              2:{ eexists _, _. split; [reflexivity|]. simpl.
                  split; [reflexivity|]. left. split; [discriminate|reflexivity]. }
              destruct (existsb _ (images w)) eqn:Hex.
              { eexists _, _. split; [reflexivity|]. simpl.
                split; [reflexivity|]. left. split; [discriminate|reflexivity]. }
              eexists _, _. split; [reflexivity|]. simpl. split; [reflexivity|].
              right. exists n, f, fl, res. unfold created.
              repeat split; auto.
              intros i Hi Hid.
              assert (existsb (fun d => String.eqb (Image._id d)
                                          (Image._id (newImage env user n f fl res)))
                        (images w) = true); [|congruence].
              apply existsb_exists. exists i. split; [exact Hi|].
              now apply String.eqb_eq.
        -- destruct (folderIdCast env w f) as [e|] eqn:Hc.
           ++ rewrite (post_upload_folder_fault env user n f fl w e Hn Hf Hc).
              eexists _, _. split; [reflexivity|]. split; [reflexivity|]. left.
              split; [|reflexivity].
              destruct (JS.includes (error_message e) "Invalid file type"); discriminate.
           ++ rewrite post_upload_foreign_folder by assumption. apply Hmsg. discriminate.
      * rewrite post_upload_missing_file by assumption. apply Hmsg. discriminate.
    + rewrite post_upload_missing_folderId by (exact Hn || exact I).
      apply Hmsg. discriminate.
  - rewrite post_upload_blank_name by exact I. apply Hmsg. discriminate.
Qed.

Ltac sample_consistent :=
  constructor;
  [ sample_nodup
  | sample_unique_names
  | let i := fresh "i" in
    let Hi := fresh "Hi" in
    intros i Hi; simpl in Hi;
    repeat (destruct Hi as [Hi|Hi]; [subst i; discriminate|]); now elim Hi
  | let i := fresh "i" in
    let Hi := fresh "Hi" in
    intros i Hi; simpl in Hi;
    repeat (destruct Hi as [Hi|Hi]; [subst i; vm_compute; discriminate|]); now elim Hi
  | intros; reflexivity ].

Ltac sample_fresh :=
  let i := fresh "i" in
  let Hi := fresh "Hi" in
  intros i Hi; simpl in Hi;
  repeat (destruct Hi as [Hi|Hi]; [subst i; discriminate|]); now elim Hi.

Ltac sample_owned :=
  exists (Folder.mk "f1" "u1" "Pets" "/Pets"); simpl; auto.

(** X1. An upload that passes the checks, whose storage upload succeeds,
    whose document the schema accepts and whose id is new, is answered 201
    with the populated document; the document carries the trimmed name, the
    URL and key that storage returned, the folder id, the caller as owner
    and the size and type of the file, and it is appended to the collection
    while everything else stays. *)
Theorem post_upload_created env user n f file w res :
  JS.trim n <> EmptyString -> f <> EmptyString ->
  folderOwned w user f -> ~ nameTaken w user f (JS.trim n) ->
  uploadToCloudinary env (buffer file) (placementFolder user) (placementId env f n)
  = inr res ->
  validate env (newImage env user n f file res) = [] ->
  (forall i, In i (images w) -> Image._id i <> new_ObjectId env) ->
  post_upload env user (Some n) (Some f) (Some file) w
  = (Return {| status := 201;
               body := ImageJson
                 (populate (folders w)
                    (Image.mk (new_ObjectId env) (JS.trim n) (secure_url res)
                       (public_id res) (Some f) user (size file) (mimetype file))) |},
     {| folders := folders w;
        images := images w
                  ++ [Image.mk (new_ObjectId env) (JS.trim n) (secure_url res)
                        (public_id res) (Some f) user (size file) (mimetype file)];
        console := console w |}).
Proof.
  intros Hn Hf Hown Hfree Hup Hv Hfresh.
  rewrite post_upload_checked by assumption.
  now rewrite (uploadAndSave_created env user n f file w res Hup Hv Hfresh).
Qed.

Lemma post_upload_created_witness :
  post_upload sample_env "u1" (Some " bird.png ") (Some "f1") (Some sample_file) sample_world
  = (Return {| status := 201;
               body := ImageJson
                 {| doc := Image.mk "i9" "bird.png"
                             "https://cdn.example/users/u1/images/f1_1700000000000_bird_png"
                             "users/u1/images/f1_1700000000000_bird_png"
                             (Some "f1") "u1" 4 "image/png";
                    folder := Expanded {| ref_id := "f1"; ref_name := "Pets";
                                          ref_path := "/Pets" |} |} |},
     {| folders := sample_folders;
        images := sample_images
                  ++ [Image.mk "i9" "bird.png"
                        "https://cdn.example/users/u1/images/f1_1700000000000_bird_png"
                        "users/u1/images/f1_1700000000000_bird_png"
                        (Some "f1") "u1" 4 "image/png"];
        console := [] |}).
Proof.
  apply (post_upload_created sample_env "u1" " bird.png " "f1" sample_file sample_world
           {| secure_url := "https://cdn.example/users/u1/images/f1_1700000000000_bird_png";
              public_id := "users/u1/images/f1_1700000000000_bird_png" |}).
  - sample_nonempty.
  - discriminate.
  - sample_owned.
  - sample_absent.
  - reflexivity.
  - reflexivity.
  - sample_fresh.
Defined.

(** X2. An upload is all or nothing.  Whatever the request and whatever the
    collaborators do, the Folder collection is untouched; the answer is 201
    exactly when one document, owned by the caller and returned in the
    body, has been appended to the Image collection, and with any other
    status the Image collection is as it was. *)
Theorem post_upload_all_or_nothing env user name folderId file w :
  folders (snd (post_upload env user name folderId file w)) = folders w
  /\ match fst (post_upload env user name folderId file w) with
     | Return r =>
         if Nat.eqb (status r) 201
         then exists d,
                body r = ImageJson (populate (folders w) d)
                /\ Image.owner d = user
                /\ images (snd (post_upload env user name folderId file w))
                   = images w ++ [d]
         else images (snd (post_upload env user name folderId file w)) = images w
     | Throw _ => False
     end.
Proof.
  destruct (post_upload_cases env user name folderId file w)
    as (r & w' & -> & Hf & [[Hs Hi]|Hnew]); simpl.
  - split; [exact Hf|]. apply Nat.eqb_neq in Hs. now rewrite Hs.
  - destruct Hnew as (n & f & fl & res & _ & _ & _ & _ & _ & _ & _ & _ & _ & _ & Hr & Hw).
    split; [exact Hf|]. unfold created in Hr. subst r w'. simpl.
    exists (newImage env user n f fl res). auto.
Qed.

(** X3. After a successful upload of a name into a folder, a second upload
    by the same caller into the same folder of any name with the same
    trimmed form is refused with 400 "Image with this name already exists
    in the folder", whatever file it carries, and adds nothing. *)
Theorem post_upload_twice_conflicts env env2 user n n2 f file file2 w r w1 :
  post_upload env user (Some n) (Some f) (Some file) w = (Return r, w1) ->
  status r = 201 ->
  JS.trim n2 = JS.trim n ->
  post_upload env2 user (Some n2) (Some f) (Some file2) w1
  = (Return (message 400 "Image with this name already exists in the folder"), w1).
Proof.
  intros Hup Hs Hn2.
  destruct (post_upload_cases env user (Some n) (Some f) (Some file) w)
    as (r' & w' & E & Hf & [[Hs' _]|Hnew]);
    rewrite Hup in E; injection E as <- <-; [now elim Hs'|].
  destruct Hnew as (n0 & f0 & fl & res & [= <-] & [= <-] & [= <-] & Hn & Hf0 & Hown
                    & _ & _ & _ & _ & _ & Hw).
  apply post_upload_name_taken.
  - now rewrite Hn2.
  - exact Hf0.
  - destruct Hown as (d & Hd & Hid & Ho). exists d. rewrite Hf. auto.
  - exists (newImage env user n f file res). rewrite Hw, Hn2. simpl.
    split; [apply in_or_app; right; simpl; auto | auto].
Qed.

Lemma post_upload_twice_conflicts_witness :
  post_upload storage_down_env "u1" (Some "bird.png  ") (Some "f1") (Some sample_file)
    (snd (post_upload sample_env "u1" (Some " bird.png") (Some "f1") (Some sample_file)
            sample_world))
  = (Return (message 400 "Image with this name already exists in the folder"),
     snd (post_upload sample_env "u1" (Some " bird.png") (Some "f1") (Some sample_file)
            sample_world)).
Proof.
  apply (post_upload_twice_conflicts sample_env storage_down_env "u1" " bird.png"
           "bird.png  " "f1" sample_file sample_file sample_world
           {| status := 201;
              body := ImageJson
                (populate sample_folders
                   (Image.mk "i9" "bird.png"
                      "https://cdn.example/users/u1/images/f1_1700000000000_bird_png"
                      "users/u1/images/f1_1700000000000_bird_png"
                      (Some "f1") "u1" 4 "image/png")) |}).
  - reflexivity.
  - reflexivity.
  - reflexivity.
Defined.

(** ** Upload composed with list and delete *)

(** X4. An image that an upload has just created is listed: a list request
    of the same caller for the folder of the upload answers 200 with a list
    that contains the very document of the 201 response. *)
Theorem post_upload_then_listed env env2 user name folderId file w r w1 :
  post_upload env user name folderId file w = (Return r, w1) ->
  status r = 201 ->
  exists x l,
    body r = ImageJson x
    /\ get_images env2 user folderId w1
       = (Return {| status := 200; body := ImagesJson l |}, w1)
    /\ In x l.
Proof.
  intros Hup Hs.
  destruct (post_upload_cases env user name folderId file w)
    as (r' & w' & E & Hf & [[Hs' _]|Hnew]);
    rewrite Hup in E; injection E as <- <-; [now elim Hs'|].
  destruct Hnew as (n & f & fl & res & -> & -> & -> & Hn & Hf0 & Hown
                    & _ & _ & _ & _ & Hr & Hw).
  unfold created in Hr. subst r.
  exists (populate (folders w) (newImage env user n f fl res)).
  eexists. split; [reflexivity|]. split.
  - apply get_images_in_folder; [exact Hf0|].
    destruct Hown as (d & Hd & Hid & Ho). exists d. rewrite Hf. auto.
  - rewrite Hf. apply in_map. apply sortByName_in. apply filter_In. split.
    + rewrite Hw. simpl. apply in_or_app. right. simpl. auto.
    + apply inFolder_true. auto.
Qed.

Lemma post_upload_then_listed_witness :
  exists x l,
    body {| status := 201;
            body := ImageJson
              (populate sample_folders
                 (Image.mk "i9" "bird.png"
                    "https://cdn.example/users/u1/images/f1_1700000000000_bird_png"
                    "users/u1/images/f1_1700000000000_bird_png"
                    (Some "f1") "u1" 4 "image/png")) |} = ImageJson x
    /\ get_images sample_env "u1" (Some "f1")
         (snd (post_upload sample_env "u1" (Some "bird.png") (Some "f1") (Some sample_file)
                 sample_world))
       = (Return {| status := 200; body := ImagesJson l |},
          snd (post_upload sample_env "u1" (Some "bird.png") (Some "f1") (Some sample_file)
                 sample_world))
    /\ In x l.
Proof.
  apply (post_upload_then_listed sample_env sample_env "u1" (Some "bird.png") (Some "f1")
           (Some sample_file) sample_world).
  - reflexivity.
  - reflexivity.
Defined.

Lemma find_app_last (test : Image.t -> bool) l d :
  (forall i, In i l -> test i = false) -> test d = true ->
  find test (l ++ [d]) = Some d.
Proof.
  intros Hl Hd. induction l as [|x r IH]; simpl.
  - now rewrite Hd.
  - rewrite (Hl x) by (simpl; auto). apply IH. intros i Hi. apply Hl. simpl. auto.
Qed.

Lemma removeById_app_last id l d :
  (forall i, In i l -> Image._id i <> id) -> Image._id d = id ->
  Image.removeById id (l ++ [d]) = l.
Proof.
  intros Hl Hd. induction l as [|x r IH]; simpl.
  - apply String.eqb_eq in Hd. now rewrite Hd.
  - assert (E : String.eqb (Image._id x) id = false)
      by (apply String.eqb_neq, Hl; simpl; auto).
    rewrite E. f_equal. apply IH. intros i Hi. apply Hl. simpl. auto.
Qed.

(** X5. Upload followed by delete is a round trip on the collections: when
    an upload has answered 201, a delete of the new id by the same caller
    answers 200 "Image deleted successfully" and leaves the Image and
    Folder collections exactly as they were before the upload, whether or
    not the stored object could be removed. *)
Theorem post_upload_then_delete env env2 user name folderId file w r w1 :
  post_upload env user name folderId file w = (Return r, w1) ->
  status r = 201 ->
  exists w2,
    delete_id env2 user (new_ObjectId env) w1
    = (Return (message 200 "Image deleted successfully"), w2)
    /\ images w2 = images w /\ folders w2 = folders w.
Proof.
  intros Hup Hs.
  destruct (post_upload_cases env user name folderId file w)
    as (r' & w' & E & Hf & [[Hs' _]|Hnew]);
    rewrite Hup in E; injection E as <- <-; [now elim Hs'|].
  destruct Hnew as (n & f & fl & res & _ & _ & _ & _ & _ & _
                    & _ & _ & _ & Hfresh & _ & Hw).
  assert (Hfind : find (ownTest user (new_ObjectId env)) (images w1)
                  = Some (newImage env user n f fl res)).
  { rewrite Hw. simpl. apply find_app_last.
    - intros i Hi. unfold ownTest, Image.matchId.
      apply Hfresh in Hi. apply String.eqb_neq in Hi. now rewrite Hi.
    - unfold ownTest, Image.matchId, Image.matchFolder. simpl.
      now rewrite !String.eqb_refl. }
  rewrite (delete_id_found env2 user (new_ObjectId env) _ w1 Hfind).
  eexists. split; [reflexivity|].
  assert (Hrm : Image.removeById (new_ObjectId env) (images w1) = images w).
  { rewrite Hw. simpl. now apply removeById_app_last. }
  simpl. rewrite Hrm.
  destruct (deleteFromCloudinary env2 _); simpl; auto.
Qed.

Lemma post_upload_then_delete_witness :
  exists w2,
    delete_id storage_down_env "u1" "i9"
      (snd (post_upload sample_env "u1" (Some "bird.png") (Some "f1") (Some sample_file)
              sample_world))
    = (Return (message 200 "Image deleted successfully"), w2)
    /\ images w2 = sample_images /\ folders w2 = sample_folders.
Proof.
  apply (post_upload_then_delete sample_env storage_down_env "u1" (Some "bird.png")
           (Some "f1") (Some sample_file) sample_world
           {| status := 201;
              body := ImageJson
                (populate sample_folders
                   (Image.mk "i9" "bird.png"
                      "https://cdn.example/users/u1/images/f1_1700000000000_bird_png"
                      "users/u1/images/f1_1700000000000_bird_png"
                      (Some "f1") "u1" 4 "image/png")) |}).
  - reflexivity.
  - reflexivity.
Defined.

(** ** The invariant on the sample collections *)

Lemma post_upload_consistent_witness :
  consistent sample_env
    (snd (post_upload sample_env "u1" (Some "bird.png") (Some "f1") (Some sample_file)
            sample_world)).
Proof.
  apply (post_upload_consistent sample_env "u1" (Some "bird.png") (Some "f1")
           (Some sample_file) sample_world).
  sample_consistent.
Defined.

Lemma put_id_consistent_witness :
  consistent sample_env (snd (put_id sample_env "u1" "i1" (Some "puppy.png") sample_world)).
Proof.
  apply (put_id_consistent sample_env "u1" "i1" (Some "puppy.png") sample_world).
  sample_consistent.
Defined.

Lemma delete_id_consistent_witness :
  consistent sample_env (snd (delete_id sample_env "u1" "i1" sample_world)).
Proof.
  apply (delete_id_consistent sample_env "u1" "i1" sample_world).
  sample_consistent.
Defined.

(** ** Search: edge and error behaviour *)

(** X9. A search whose query is absent, empty or only white space answers
    200 with the empty list for every caller, every content of the
    collections and every pattern engine, and leaves the world, console
    included, as it was. *)
Theorem get_search_blank_query env user q w :
  blank q ->
  get_search env user q w = (Return {| status := 200; body := ImagesJson [] |}, w).
Proof. apply get_search_blank. Qed.

Lemma get_search_blank_query_witness :
  get_search sample_env "u1" (Some "     ") sample_world
  = (Return {| status := 200; body := ImagesJson [] |}, sample_world).
Proof.
  apply (get_search_blank_query sample_env "u1" (Some "     ") sample_world).
  reflexivity.
Defined.

Lemma In_firstn {A} (x : A) : forall k l, In x (firstn k l) -> In x l.
Proof.
  induction k as [|k IH]; intros [|y l]; simpl; try easy.
  intros [->|H]; auto.
Qed.

Lemma searchTest_owner user test i : searchTest user test i = true -> Image.owner i = user.
Proof.
  unfold searchTest. rewrite !andb_true_iff. intros [[[_ H] _] _].
  now apply String.eqb_eq.
Qed.

(** X11. A search is scoped to the caller: whatever the query and the
    pattern engine, every image in the answer is a stored document owned by
    the caller, with its folder reference populated from the Folder
    collection. *)
Theorem get_search_scoped env user q w :
  match fst (get_search env user q w) with
  | Return r =>
      match body r with
      | ImagesJson l =>
          Forall (fun x => In (doc x) (images w) /\ Image.owner (doc x) = user
                           /\ folder x = populateFolder (folders w) (doc x)) l
      | _ => True
      end
  | Throw _ => False
  end.
Proof.
  destruct q as [q|]; [destruct (string_dec (JS.trim q) EmptyString) as [E|E]|].
  - rewrite get_search_blank by exact E. cbn [fst body]. constructor.
  - destruct (regex env (JS.trim q) "i") as [test|] eqn:Hr.
    + rewrite (get_search_compiled _ _ _ _ _ E Hr). cbn [fst body].
      apply Forall_forall. intros x Hx. apply in_map_iff in Hx.
      destruct Hx as (i & <- & Hi). unfold Image.limit in Hi.
      apply In_firstn, sortByName_in, filter_In in Hi. destruct Hi as [Hin Ht].
      cbn [doc folder populate]. split; [exact Hin|]. split; [|reflexivity].
      now apply (searchTest_owner user test).
    + rewrite (get_search_rejected _ _ _ _ E Hr). exact I.
  - rewrite get_search_blank by exact I. cbn [fst body]. constructor.
Qed.

(** X12. When the database rejects the trimmed query as a pattern, the
    search answers 500 "Server error while searching images", writes the
    error to the console under "Search images error:" and touches neither
    collection. *)
Theorem get_search_bad_pattern env user q w :
  JS.trim q <> EmptyString -> regex env (JS.trim q) "i" = None ->
  exists e,
    get_search env user (Some q) w
    = (Return (message 500 "Server error while searching images"),
       {| folders := folders w; images := images w;
          console := console w ++ [("Search images error:", e)] |}).
Proof.
  intros Hq Hr. exists (Error "Regular expression is invalid").
  now rewrite (get_search_rejected _ _ _ _ Hq Hr).
Qed.

Lemma get_search_bad_pattern_witness :
  exists e,
    get_search sample_env "u1" (Some " ( ") sample_world
    = (Return (message 500 "Server error while searching images"),
       {| folders := sample_folders; images := sample_images;
          console := [("Search images error:", e)] |}).
Proof.
  apply (get_search_bad_pattern sample_env "u1" " ( " sample_world).
  - sample_nonempty.
  - reflexivity.
Defined.

(** ** Rename: error behaviour and what it leaves alone *)



Lemma find_exists (test : Image.t -> bool) l j :
  In j l -> test j = true -> exists x, find test l = Some x.
Proof.
  intros Hin Ht. destruct (find test l) as [x|] eqn:E; [now exists x|].
  rewrite (find_none _ _ E j Hin) in Ht. discriminate.
Qed.

(** X14. A rename to a name that another image of the same owner in the
    same folder already carries is refused with 400 "Image with this name
    already exists in the folder" and changes nothing. *)
Theorem put_id_conflict env user n i j w :
  JS.trim n <> EmptyString ->
  uniqueIds (images w) -> In i (images w) -> Image.owner i = user ->
  populateFolder (folders w) i <> Null ->
  In j (images w) -> Image._id j <> Image._id i -> Image.owner j = user ->
  Image.folder j = Image.folder i -> Image.name j = JS.trim n ->
  put_id env user (Image._id i) (Some n) w
  = (Return (message 400 "Image with this name already exists in the folder"), w).
Proof.
  intros Hn Hids Hi Ho Hres Hj Hid Hoj Hfj Hnj.
  rewrite (put_id_checked env user (Image._id i) n i w Hn) by now apply find_own.
  destruct (find_exists
              (otherTest user (Image._id i)
                 (folderCondOf (populateFolder (folders w) i)) (JS.trim n))
              (images w) j Hj) as [x ->]; [|reflexivity].
  apply otherTest_true; auto. now apply matchFolder_resolved.
Qed.

Lemma put_id_conflict_witness :
  put_id sample_env "u1" "i1" (Some " Cat.png") sample_world
  = (Return (message 400 "Image with this name already exists in the folder"),
     sample_world).
Proof.
  apply (put_id_conflict sample_env "u1" " Cat.png"
           (Image.mk "i1" "dog.png" "https://cdn.example/dog" "pid-dog" (Some "f1") "u1"
              10 "image/png")
           (Image.mk "i2" "Cat.png" "https://cdn.example/cat" "pid-cat" (Some "f1") "u1"
              20 "image/png") sample_world).
  - sample_nonempty.
  - sample_nodup.
  - simpl. auto.
  - reflexivity.
  - vm_compute. discriminate.
  - simpl. auto.
  - discriminate.
  - reflexivity.
  - reflexivity.
  - reflexivity.
Defined.

Lemma uniqueIds_same l a b :
  uniqueIds l -> In a l -> In b l -> Image._id a = Image._id b -> a = b.
Proof.
  unfold uniqueIds. induction l as [|x r IH]; simpl; [easy|].
  intros Hnd Ha Hb E. inversion Hnd as [|? ? Hx Hr]; subst.
  destruct Ha as [->|Ha], Hb as [->|Hb]; auto.
  - elim Hx. rewrite E. now apply in_map.
  - elim Hx. rewrite <- E. now apply in_map.
Qed.

(** X15. A rename can change names and nothing else.  Whatever the request
    and its outcome, the Folder collection is untouched and the Image
    collection keeps its documents in order with their ids, URLs, storage
    keys, folder references, owners, sizes and types: an image is never
    moved to another folder or owner, never added and never removed. *)
Theorem put_id_changes_names_only env user id name w :
  uniqueIds (images w) ->
  folders (snd (put_id env user id name w)) = folders w
  /\ map (Image.set_name EmptyString) (images (snd (put_id env user id name w)))
     = map (Image.set_name EmptyString) (images w).
Proof.
  intros Hids.
  destruct (put_id_world env user id name w) as [Hf [Hi|Hnew]].
  - split; [exact Hf | now rewrite Hi].
  - destruct Hnew as (n & i & _ & Hown & _ & _ & Hi).
    split; [exact Hf|]. rewrite Hi. unfold Image.replaceById. rewrite map_map.
    apply map_ext_in. intros d Hd.
    apply find_own_inv in Hown. destruct Hown as (Hin & _ & _).
    destruct (String.eqb (Image._id d) (Image._id (Image.set_name (JS.trim n) i))) eqn:E;
      [|reflexivity].
    apply String.eqb_eq in E. simpl in E.
    now rewrite (uniqueIds_same _ d i Hids Hd Hin E).
Qed.

Lemma put_id_changes_names_only_witness :
  folders (snd (put_id sample_env "u1" "i1" (Some "puppy.png") sample_world))
  = sample_folders
  /\ map (Image.set_name EmptyString)
       (images (snd (put_id sample_env "u1" "i1" (Some "puppy.png") sample_world)))
     = map (Image.set_name EmptyString) sample_images.
Proof.
  apply (put_id_changes_names_only sample_env "u1" "i1" (Some "puppy.png") sample_world).
  sample_nodup.
Defined.

(** X16. When the schema refuses the renamed document, the rename answers
    500 "Server error while updating image", logs the validation error
    under "Update image error:", and the stored document keeps its old
    name: both collections are as before. *)
Theorem put_id_save_refused env user n i w m ms :
  JS.trim n <> EmptyString ->
  uniqueIds (images w) -> In i (images w) -> Image.owner i = user ->
  populateFolder (folders w) i <> Null ->
  (forall j, In j (images w) -> Image._id j <> Image._id i -> Image.owner j = user ->
             Image.folder j = Image.folder i -> Image.name j <> JS.trim n) ->
  validate env (Image.set_name (JS.trim n) i) = m :: ms ->
  put_id env user (Image._id i) (Some n) w
  = (Return (message 500 "Server error while updating image"),
     {| folders := folders w; images := images w;
        console := console w ++ [("Update image error:", ValidationError (m :: ms))] |}).
Proof.
  intros Hn Hids Hi Ho Hres Hfree Hv.
  rewrite (put_id_checked env user (Image._id i) n i w Hn) by now apply find_own.
  now rewrite (find_other_none user (JS.trim n) i w Hres Hfree), Hv.
Qed.

Lemma put_id_save_refused_witness :
  put_id strict_schema_env "u1" "i1" (Some "holiday-2024.png") sample_world
  = (Return (message 500 "Server error while updating image"),
     {| folders := sample_folders; images := sample_images;
        console := [("Update image error:",
                     ValidationError ["Image name cannot exceed 8 characters"])] |}).
Proof.
  apply (put_id_save_refused strict_schema_env "u1" "holiday-2024.png"
           (Image.mk "i1" "dog.png" "https://cdn.example/dog" "pid-dog" (Some "f1") "u1"
              10 "image/png") sample_world
           "Image name cannot exceed 8 characters" []).
  - sample_nonempty.
  - sample_nodup.
  - simpl. auto.
  - reflexivity.
  - vm_compute. discriminate.
  - intros j Hj. simpl in Hj.
    repeat (destruct Hj as [Hj|Hj]; [subst j; cbv; intuition congruence|]).
    now elim Hj.
  - reflexivity.
Defined.

(** ** Delete twice *)

Lemma filter_ids_absent id l i :
  In i (filter (fun j => negb (String.eqb (Image._id j) id)) l) -> Image._id i <> id.
Proof.
  intros H. apply filter_In in H. destruct H as [_ H].
  now apply negb_true_iff, String.eqb_neq in H.
Qed.

(** X17. Delete is final: after a delete request for an id, however it was
    answered, a further delete by the same caller of the same id, the id
    having the format of an id, answers 404 "Image not found" and changes
    nothing more. *)
Theorem delete_id_twice env env2 user id w :
  uniqueIds (images w) ->
  castObjectId env2 id = None ->
  delete_id env2 user id (snd (delete_id env user id w))
  = (Return (message 404 "Image not found"), snd (delete_id env user id w)).
Proof.
  intros Hids Hfmt. apply delete_id_absent; [now apply castId_format|].
  destruct (find (ownTest user id) (images w)) as [i|] eqn:Ei.
  - rewrite (delete_id_found env user id i w Ei).
    pose proof (find_own_inv _ _ _ _ Ei) as (Hin & Hid & Ho).
    match goal with
    | |- find ?t ?l = None => destruct (find t l) as [x|] eqn:Ex; [|reflexivity]
    end.
    apply find_own_inv in Ex. destruct Ex as (Hx & Hxid & _).
    assert (Hx' : In x (filter (fun j => negb (String.eqb (Image._id j) id)) (images w))).
    { rewrite <- Hid, <- removeById_filter by exact Hids.
      destruct (deleteFromCloudinary env _); exact Hx. }
    now apply filter_ids_absent in Hx'.
  - destruct (imageIdCast env w id) as [e|] eqn:Hc.
    + rewrite (delete_id_fault env user id w e Hc). exact Ei.
    + rewrite (delete_id_absent env user id w Hc Ei). exact Ei.
Qed.

Lemma delete_id_twice_witness :
  delete_id storage_down_env "u1" "64b7f0c2a1d3e4f5a6b7c8d9"
    (snd (delete_id sample_env "u1" "64b7f0c2a1d3e4f5a6b7c8d9" hex_world))
  = (Return (message 404 "Image not found"),
     snd (delete_id sample_env "u1" "64b7f0c2a1d3e4f5a6b7c8d9" hex_world))
  /\ images (snd (delete_id sample_env "u1" "64b7f0c2a1d3e4f5a6b7c8d9" hex_world)) = [].
Proof.
  split; [|reflexivity].
  apply (delete_id_twice sample_env storage_down_env "u1" "64b7f0c2a1d3e4f5a6b7c8d9"
           hex_world).
  - sample_nodup.
  - reflexivity.
Defined.

(** ** The placement id *)

(** X18. The name part of a placement id is safe: sanitising keeps the
    length, leaves letters and digits where they are and yields only
    letters, digits and underscores; a name made of letters and digits is
    unchanged. *)
Theorem replaceNonAlnum_safe s :
  allChars isPlacementChar (JS.replaceNonAlnum s) = true
  /\ String.length (JS.replaceNonAlnum s) = String.length s
  /\ (forall k c, String.get k s = Some c -> JS.isAlnum c = true ->
                  String.get k (JS.replaceNonAlnum s) = Some c)
  /\ (allChars JS.isAlnum s = true -> JS.replaceNonAlnum s = s).
Proof.
  split; [|split; [|split]].
  - induction s as [|c r IH]; simpl; [reflexivity|]. rewrite IH, andb_true_r.
    unfold isPlacementChar. destruct (JS.isAlnum c) eqn:E; [now rewrite E|reflexivity].
  - induction s as [|c r IH]; simpl; [reflexivity|]. now rewrite IH.
  - induction s as [|c r IH]; intros [|k] d; simpl; try discriminate.
    + intros [= ->] ->. reflexivity.
    + apply IH.
  - induction s as [|c r IH]; simpl; [reflexivity|].
    intros H. apply andb_true_iff in H. destruct H as [-> Hr]. now rewrite IH.
Qed.

Lemma replaceNonAlnum_safe_witness :
  String.get 1 (JS.replaceNonAlnum "my cat.png") = Some "y"%char
  /\ JS.replaceNonAlnum "cat2" = "cat2".
Proof.
  split.
  - apply (proj1 (proj2 (proj2 (replaceNonAlnum_safe "my cat.png"))) 1%nat "y"%char);
      reflexivity.
  - apply (proj2 (proj2 (proj2 (replaceNonAlnum_safe "cat2")))). reflexivity.
Defined.

(** ** The configured size limit *)

Ltac parse_digit :=
  cbn [JS.parseDigits NilEmpty.string_of_uint Pos.of_uint_acc Pos.of_uint];
  match goal with
  | |- context [JS.digitValue ?c] =>
      let v := eval vm_compute in (JS.digitValue c) in
      change (JS.digitValue c) with v
  end;
  cbv iota beta;
  match goal with
  | |- context [(?k <? 10)%N] => change ((k <? 10)%N) with true
  end;
  cbv iota.

Lemma parseDigits_acc d : forall acc,
  JS.parseDigits 10 (NilEmpty.string_of_uint d) (Some (Npos acc))
  = Some (Npos (Pos.of_uint_acc d acc)).
Proof.
  induction d; intros acc; [reflexivity | ..]; parse_digit; rewrite <- IHd;
    do 2 f_equal; lia.
Qed.

Lemma parseDigits_zero d :
  JS.parseDigits 10 (NilEmpty.string_of_uint d) (Some 0%N) = Some (Pos.of_uint d).
Proof.
  induction d; [reflexivity | parse_digit; exact IHd | ..];
    parse_digit; rewrite <- parseDigits_acc; reflexivity.
Qed.

Lemma parseDigits_uint d :
  d <> Decimal.Nil ->
  JS.parseDigits 10 (NilEmpty.string_of_uint d) None = Some (Pos.of_uint d).
Proof.
  destruct d; intros H; [now elim H | ..]; parse_digit;
    [rewrite <- parseDigits_zero | rewrite <- parseDigits_acc ..]; reflexivity.
Qed.

Lemma parseInt_uint d :
  d <> Decimal.Nil ->
  JS.parseInt (NilEmpty.string_of_uint d)
  = option_map (fun n => Z.of_N (JS.toDouble n))
      (JS.parseDigits 10 (NilEmpty.string_of_uint d) None).
Proof.
  destruct d as [|d|d|d|d|d|d|d|d|d|d]; intros H; [now elim H | | reflexivity ..].
  destruct d; reflexivity.
Qed.

Lemma toDouble_exact n : (n <= 2 ^ 53)%N -> JS.toDouble n = n.
Proof.
  intros H. unfold JS.toDouble. apply N.leb_le in H. now rewrite H.
Qed.

Lemma parseInt_numberToString n :
  JS.parseInt (JS.numberToString n) = Some (Z.of_N (JS.toDouble n)).
Proof.
  unfold JS.numberToString.
  assert (Hnn : N.to_uint n <> Decimal.Nil).
  { destruct n as [|p]; [discriminate|]. simpl. apply DecimalPos.Unsigned.to_uint_nonnil. }
  assert (E : NilZero.string_of_uint (N.to_uint n) = NilEmpty.string_of_uint (N.to_uint n)).
  { destruct (N.to_uint n); [now elim Hnn | reflexivity ..]. }
  rewrite E, (parseInt_uint _ Hnn), (parseDigits_uint _ Hnn). simpl.
  change (Pos.of_uint (N.to_uint n)) with (N.of_uint (N.to_uint n)).
  now rewrite DecimalN.Unsigned.of_to.
Qed.

(** X19. The size limit follows the environment: a FILE_SIZE_LIMIT written
    as the decimal digits of a positive number of at most 2^53 is the limit
    in bytes; when the variable is unset, or is the digits of zero, the
    limit is 5,000,000. *)
Theorem fileSize_configured n types :
  (n <= 2 ^ 53)%N ->
  fileSize {| FILE_SIZE_LIMIT := Some (JS.numberToString n); ALLOWED_FILE_TYPES := types |}
  = (if (n =? 0)%N then 5000000%Z else Z.of_N n)
  /\ fileSize {| FILE_SIZE_LIMIT := None; ALLOWED_FILE_TYPES := types |} = 5000000%Z.
Proof.
  intros Hn. split; [|reflexivity].
  unfold fileSize. cbn [FILE_SIZE_LIMIT].
  rewrite parseInt_numberToString, (toDouble_exact n Hn).
  destruct n as [|p]; reflexivity.
Qed.

Lemma fileSize_configured_witness :
  fileSize {| FILE_SIZE_LIMIT := Some "1048576"; ALLOWED_FILE_TYPES := None |} = 1048576%Z
  /\ fileSize {| FILE_SIZE_LIMIT := Some "0"; ALLOWED_FILE_TYPES := None |} = 5000000%Z.
Proof.
  split.
  - apply (proj1 (fileSize_configured 1048576 None ltac:(vm_compute; discriminate))).
  - apply (proj1 (fileSize_configured 0 None ltac:(vm_compute; discriminate))).
Defined.

(** Beyond 2^53 the limit is the nearest double, not the number written. *)
Example fileSize_rounded :
  fileSize {| FILE_SIZE_LIMIT := Some "9007199254740993"; ALLOWED_FILE_TYPES := None |}
  = 9007199254740992%Z.
Proof. vm_compute. reflexivity. Qed.

(** ** The configured allow-list *)

Lemma split_commaFree x : commaFree x = true -> JS.split ","%char x = [x].
Proof.
  unfold commaFree. induction x as [|c r IH]; simpl; [reflexivity|].
  intros H. apply andb_true_iff in H. destruct H as [Hc Hr].
  apply negb_true_iff in Hc. now rewrite Hc, (IH Hr).
Qed.

Lemma split_app_comma x rest :
  commaFree x = true ->
  JS.split ","%char (x ++ String ","%char rest)%string = x :: JS.split ","%char rest.
Proof.
  unfold commaFree. induction x as [|c r IH]; simpl; [reflexivity|].
  intros H. apply andb_true_iff in H. destruct H as [Hc Hr].
  apply negb_true_iff in Hc. now rewrite Hc, (IH Hr).
Qed.

Lemma split_join l :
  l <> [] -> forallb commaFree l = true -> JS.split ","%char (JS.join "," l) = l.
Proof.
  unfold JS.join. induction l as [|x r IH]; [easy|]. intros _ H.
  simpl in H. apply andb_true_iff in H. destruct H as [Hx Hr].
  destruct r as [|y r]; [now apply split_commaFree|].
  change (String.concat "," (x :: y :: r))
    with (x ++ String ","%char (String.concat "," (y :: r)))%string.
  rewrite (split_app_comma _ _ Hx). f_equal. apply IH; [discriminate | exact Hr].
Qed.

(** X20. The allow-list follows the environment: when ALLOWED_FILE_TYPES is
    a non-empty list of types joined by commas, the filter accepts a file,
    whose content type reaches it in lower case, exactly when that type is
    one of the list, compared character for character; the built-in three
    no longer count. *)
Theorem fileFilter_configured l limit m :
  l <> [] -> forallb commaFree l = true -> foldCase m = m ->
  fileFilter {| FILE_SIZE_LIMIT := limit; ALLOWED_FILE_TYPES := Some (JS.join "," l) |} m
  = None
  <-> In m l.
Proof.
  intros Hl Hc _. unfold fileFilter, allowedTypes. cbn [ALLOWED_FILE_TYPES].
  rewrite (split_join l Hl Hc).
  destruct (existsb (String.eqb m) l) eqn:E.
  - split; [intros _|reflexivity]. apply existsb_exists in E.
    destruct E as (x & Hx & Hm). apply String.eqb_eq in Hm. now subst.
  - split; [discriminate|]. intros Hin.
    assert (existsb (String.eqb m) l = true); [|congruence].
    apply existsb_exists. exists m. split; [exact Hin | apply String.eqb_refl].
Qed.

Lemma fileFilter_configured_witness :
  fileFilter {| FILE_SIZE_LIMIT := None;
                ALLOWED_FILE_TYPES := Some "image/webp,image/png" |} "image/png" = None
  /\ fileFilter {| FILE_SIZE_LIMIT := None;
                   ALLOWED_FILE_TYPES := Some "image/webp,image/png" |} "image/jpeg" <> None.
Proof.
  split.
  - apply (proj2 (fileFilter_configured ["image/webp"; "image/png"] None "image/png"
                    ltac:(discriminate) eq_refl eq_refl)).
    simpl. auto.
  - intros H.
    apply (proj1 (fileFilter_configured ["image/webp"; "image/png"] None "image/jpeg"
                    ltac:(discriminate) eq_refl eq_refl)) in H.
    simpl in H. destruct H as [H|[H|[]]]; discriminate.
Defined.

(** ** From intake to the collection *)

Lemma upload_single_accepted penv req file :
  upload_single penv req = inr (Some file) ->
  In (mimetype file) (allowedTypes penv)
  /\ (Z.of_N (size file) <= fileSize penv)%Z
  /\ size file = N.of_nat (List.length (buffer file)).
Proof.
  unfold upload_single, fileFilter.
  destruct (part_image req) as [p|]; [|discriminate].
  destruct (existsb _ (allowedTypes penv)) eqn:Ht; [|discriminate].
  destruct (fileSize penv <=? _)%Z eqn:Hs; [discriminate|].
  intros [= <-]. simpl. split; [|split; [|reflexivity]].
  - apply existsb_exists in Ht. destruct Ht as (x & Hx & Hm).
    apply String.eqb_eq in Hm. now subst.
  - apply Z.leb_gt in Hs. now apply Z.lt_le_incl.
Qed.

(** X21. Nothing gets past the intake stage into the collection: whenever
    the upload route answers 201, the document it has appended has a
    content type of the allow-list and a size within the configured limit,
    the size being the number of bytes received. *)
Theorem post_upload_route_within_limits env penv user req w r w' :
  post_upload_route env penv user req w = (Responded r, w') ->
  status r = 201 ->
  exists d,
    body r = ImageJson (populate (folders w) d)
    /\ images w' = images w ++ [d]
    /\ In (Image.mimetype d) (allowedTypes penv)
    /\ (Z.of_N (Image.size d) <= fileSize penv)%Z
    /\ option_map (fun p => N.of_nat (List.length (part_data p))) (part_image req)
       = Some (Image.size d).
Proof.
  unfold post_upload_route.
  destruct (upload_single penv req) as [e|file] eqn:Hin.
  - unfold multer_error_handler. destruct e as [m|errs|code m|m]; try discriminate.
    destruct (String.eqb code "LIMIT_FILE_SIZE"); intros [= <- <-]; discriminate.
  - unfold run_handler.
    destruct (post_upload_cases env user (field_name req) (field_folderId req) file w)
      as (r0 & w0 & -> & Hf & [[Hs _]|Hnew]); intros [= <- <-] Hst; [now elim Hs|].
    destruct Hnew as (n & f & fl & res & _ & _ & -> & _ & _ & _ & _ & _ & _ & _ & Hr & Hw).
    destruct (upload_single_accepted penv req fl Hin) as (Ht & Hsz & Hlen).
    exists (newImage env user n f fl res). unfold created in Hr. subst r0 w0.
    simpl. repeat split; auto.
    revert Hin Hlen. unfold upload_single.
    destruct (part_image req) as [p|]; [|discriminate].
    destruct (fileFilter penv (part_mimetype p)); [discriminate|].
    destruct (fileSize penv <=? _)%Z; [discriminate|].
    intros [= <-]. reflexivity.
Qed.

Lemma post_upload_route_within_limits_witness :
  exists d,
    body {| status := 201;
            body := ImageJson
              (populate sample_folders
                 (Image.mk "i9" "new.png"
                    "https://cdn.example/users/u1/images/f1_1700000000000_new_png"
                    "users/u1/images/f1_1700000000000_new_png"
                    (Some "f1") "u1" 4 "image/png")) |}
    = ImageJson (populate (folders sample_world) d)
    /\ images (snd (post_upload_route sample_env default_penv "u1" png_request sample_world))
       = images sample_world ++ [d]
    /\ In (Image.mimetype d) (allowedTypes default_penv)
    /\ (Z.of_N (Image.size d) <= fileSize default_penv)%Z
    /\ option_map (fun p => N.of_nat (List.length (part_data p))) (part_image png_request)
       = Some (Image.size d).
Proof.
  apply (post_upload_route_within_limits sample_env default_penv "u1" png_request
           sample_world).
  - reflexivity.
  - reflexivity.
Defined.

(** ** Stored names are trimmed *)

Lemma trimEnd_cons c r :
  JS.trimEnd (String c r)
  = match JS.trimEnd r with
    | EmptyString => if JS.isWhiteSpace c then EmptyString else String c EmptyString
    | String d r' => String c (String d r')
    end.
Proof. reflexivity. Qed.

Lemma trimEnd_idempotent s : JS.trimEnd (JS.trimEnd s) = JS.trimEnd s.
Proof.
  induction s as [|c r IH]; [reflexivity|].
  rewrite trimEnd_cons. destruct (JS.trimEnd r) as [|d r'] eqn:E.
  - destruct (JS.isWhiteSpace c) eqn:Hc; [reflexivity|].
    rewrite trimEnd_cons. simpl. now rewrite Hc.
  - rewrite trimEnd_cons. now rewrite IH.
Qed.

Lemma trimStart_head s :
  JS.trimStart s = EmptyString
  \/ exists c r, JS.trimStart s = String c r /\ JS.isWhiteSpace c = false.
Proof.
  induction s as [|c r IH]; simpl; [now left|].
  destruct (JS.isWhiteSpace c) eqn:Hc; [exact IH|]. right. now exists c, r.
Qed.

Lemma trimEnd_head c r :
  JS.isWhiteSpace c = false -> exists r', JS.trimEnd (String c r) = String c r'.
Proof.
  intros Hc. simpl. destruct (JS.trimEnd r) as [|d r'].
  - rewrite Hc. now exists EmptyString.
  - now exists (String d r').
Qed.

Lemma trim_idempotent s : JS.trim (JS.trim s) = JS.trim s.
Proof.
  unfold JS.trim. destruct (trimStart_head s) as [->|(c & r & -> & Hc)]; [reflexivity|].
  destruct (trimEnd_head c r Hc) as [r' E]. rewrite E.
  simpl JS.trimStart. rewrite Hc. rewrite <- E. apply trimEnd_idempotent.
Qed.

(** X22. Names are stored trimmed: if every stored name is its own trimmed
    form, this is still so after any upload, any rename and any delete, so
    the exact-name comparison of the duplicate checks always compares
    trimmed names with trimmed names. *)
Theorem names_stay_trimmed env user w :
  namesTrimmed w ->
  (forall name folderId file,
      namesTrimmed (snd (post_upload env user name folderId file w)))
  /\ (forall id name, namesTrimmed (snd (put_id env user id name w)))
  /\ (forall id, namesTrimmed (snd (delete_id env user id w))).
Proof.
  intros Ht. split; [|split].
  - intros name folderId file.
    destruct (post_upload_world env user name folderId file w) as [_ [Hi|Hnew]];
      intros i Hin.
    + rewrite Hi in Hin. now apply Ht.
    + destruct Hnew as (n & f & fl & res & _ & _ & _ & _ & _ & Hi).
      rewrite Hi in Hin. apply in_app_iff in Hin. destruct Hin as [Hin|[<-|[]]].
      * now apply Ht.
      * simpl. apply trim_idempotent.
  - intros id name.
    destruct (put_id_world env user id name w) as [_ [Hi|Hnew]]; intros x Hin.
    + rewrite Hi in Hin. now apply Ht.
    + destruct Hnew as (n & i & _ & _ & _ & _ & Hi).
      rewrite Hi in Hin. apply replaceById_in in Hin.
      destruct Hin as [[Hin _]|[-> _]]; [now apply Ht|].
      simpl. apply trim_idempotent.
  - intros id.
    destruct (delete_id_world env user id w) as [_ [Hi|[i Hi]]]; intros x Hin;
      rewrite Hi in Hin; [|apply removeById_in in Hin]; now apply Ht.
Qed.

Ltac sample_trimmed :=
  let i := fresh "i" in
  let Hi := fresh "Hi" in
  intros i Hi; simpl in Hi;
  repeat (destruct Hi as [Hi|Hi]; [subst i; reflexivity|]); now elim Hi.

Lemma names_stay_trimmed_witness :
  namesTrimmed (snd (post_upload sample_env "u1" (Some "  bird.png  ") (Some "f1")
                       (Some sample_file) sample_world))
  /\ namesTrimmed (snd (put_id sample_env "u1" "i1" (Some " puppy.png ") sample_world))
  /\ namesTrimmed (snd (delete_id sample_env "u1" "i1" sample_world)).
Proof.
  destruct (names_stay_trimmed sample_env "u1" sample_world) as (H1 & H2 & H3).
  - sample_trimmed.
  - split; [apply H1 | split; [apply H2 | apply H3]].
Defined.
